(** * General Download Renamer: the filename templating and classification engine

    A shallow embedding of [utils/filenameUtils.js] (sanitizer, filename
    splitter, pattern assembler, category classifier) and of the
    [processDownload] handler of [background/service-worker.js], followed by
    the properties the specification states about them.

    Conventions of the embedding.
    - A JavaScript string is a [string]: a sequence of character codes, each
      read as one UTF-16 code unit of the range 0..255.  Case mapping and
      white space are the ones JavaScript defines on that range.
    - The placeholder object of the service worker is a finite map from
      property names to strings ([gmap string string]); an absent key is
      JavaScript's [undefined].  Only the object's own properties are
      modelled: placeholder names are taken not to be among the names an
      object inherits (such as [constructor] or [toString]).
    - Exceptions are explicit: a computation that may throw returns a
      [result], and [try_catch] is the [try { } catch (e) { }] statement.
    - The regular-expression engine, the URL parser and the clock belong to
      the host, not to the repository; they are fields of the [Host] class
      and every statement about the service worker holds for every host. *)

From stdpp Require Import gmap strings list pretty.
From Stdlib Require Import ZArith Ascii Lia.

Local Open Scope Z_scope.

(** ** JavaScript string and array primitives used by the sources *)

Module JS.

(** [!x] is false exactly for the non-empty strings. *)
Definition truthy (s : string) : bool :=
  match s with "" => false | String _ _ => true end.

Fixpoint length (s : string) : nat :=
  match s with "" => O | String _ s' => S (length s') end.

Fixpoint map_chars (f : ascii → ascii) (s : string) : string :=
  match s with
  | "" => ""
  | String c s' => String (f c) (map_chars f s')
  end.

Fixpoint take (n : nat) (s : string) : string :=
  match n, s with
  | S n', String c s' => String c (take n' s')
  | _, _ => ""
  end.

Fixpoint drop (n : nat) (s : string) : string :=
  match n, s with
  | S n', String _ s' => drop n' s'
  | _, _ => s
  end.

(** [s.charAt(i)], as an option. *)
Fixpoint get (n : nat) (s : string) : option ascii :=
  match s, n with
  | "", _ => None
  | String c _, O => Some c
  | String _ s', S n' => get n' s'
  end.

(** [s.lastIndexOf(c)] for a one-character needle: the largest index
    holding [c], or [-1]. *)
Fixpoint lastIndexOf (s : string) (c : ascii) : Z :=
  match s with
  | "" => -1
  | String a s' =>
      let r := lastIndexOf s' c in
      if 0 <=? r then r + 1
      else if bool_decide (a = c) then 0 else -1
  end.

(** [s.substring(start, end)]: both indices are clamped to [0, length]
    and swapped when out of order. *)
Definition substring (s : string) (start end_ : Z) : string :=
  let len := Z.of_nat (length s) in
  let a := Z.min (Z.max start 0) len in
  let b := Z.min (Z.max end_ 0) len in
  let lo := Z.min a b in
  let hi := Z.max a b in
  take (Z.to_nat (hi - lo)) (drop (Z.to_nat lo) s).

(** [s.substring(start)]: the end defaults to the length. *)
Definition substring_from (s : string) (start : Z) : string :=
  substring s start (Z.of_nat (length s)).

(** [s.slice(start, end)]: negative indices count from the end. *)
Definition slice (s : string) (start end_ : Z) : string :=
  let len := Z.of_nat (length s) in
  let norm i := if i <? 0 then Z.max (len + i) 0 else Z.min i len in
  let from := norm start in
  let to := norm end_ in
  take (Z.to_nat (Z.max (to - from) 0)) (drop (Z.to_nat from) s).

Fixpoint startsWith (s p : string) {struct p} : bool :=
  match p, s with
  | "", _ => true
  | String b p', String a s' => bool_decide (a = b) && startsWith s' p'
  | String _ _, "" => false
  end.

(** [s.includes(k)]: [k] occurs in [s] as a substring. *)
Fixpoint includes (s k : string) : bool :=
  startsWith s k
  || match s with "" => false | String _ s' => includes s' k end.

(** [s.endsWith(p)]: some suffix of [s] is [p]. *)
Fixpoint endsWith (s p : string) : bool :=
  bool_decide (s = p)
  || match s with "" => false | String _ s' => endsWith s' p end.

(** Simple case mapping of the code units below 256: A-Z, and the
    Latin-1 capitals U+00C0..U+00DE except the multiplication sign. *)
Definition is_upper (c : ascii) : bool :=
  let n := nat_of_ascii c in
  ((65 <=? n) && (n <=? 90)
   || (192 <=? n) && (n <=? 222) && negb (n =? 215))%nat.

Definition lower_char (c : ascii) : ascii :=
  if is_upper c then ascii_of_nat (nat_of_ascii c + 32) else c.

Definition toLowerCase (s : string) : string := map_chars lower_char s.

(** White space and line terminators below 256: TAB, LF, VT, FF, CR,
    SPACE and NO-BREAK SPACE. *)
Definition is_white (c : ascii) : bool :=
  let n := nat_of_ascii c in
  ((9 <=? n) && (n <=? 13) || (n =? 32) || (n =? 160))%nat.

Fixpoint trimStart (s : string) : string :=
  match s with
  | "" => ""
  | String c s' => if is_white c then trimStart s' else s
  end.

Fixpoint trimEnd (s : string) : string :=
  match s with
  | "" => ""
  | String c s' =>
      match trimEnd s' with
      | "" => if is_white c then "" else String c ""
      | t => String c t
      end
  end.

Definition trim (s : string) : string := trimEnd (trimStart s).

(** [s.split(sep)] for a one-character separator; the empty string
    splits into one empty field. *)
Fixpoint split (s : string) (sep : ascii) : list string :=
  match s with
  | "" => [""]
  | String c s' =>
      if bool_decide (c = sep) then "" :: split s' sep
      else match split s' sep with
           | [] => [String c ""]
           | field :: fields => String c field :: fields
           end
  end.

(** [arr.join(sep)]. *)
Fixpoint join (arr : list string) (sep : string) : string :=
  match arr with
  | [] => ""
  | [x] => x
  | x :: rest => x +:+ sep +:+ join rest sep
  end.

(** [arr.includes(x)] on an array of strings. *)
Definition array_includes (arr : list string) (x : string) : bool :=
  bool_decide (x ∈ arr).

(** [String(n).padStart(width, '0')] for a natural number. *)
Definition padStart0 (width : nat) (s : string) : string :=
  Nat.iter (width - length s) (String "0"%char) s.

(** [x || ''] on an optional string. *)
Definition or_empty (o : option string) : string := default "" o.

(** Exceptions. *)
Inductive exn := SyntaxError | TypeError.

Inductive result (A : Type) :=
| Ok (a : A)
| Throw (e : exn).
Global Arguments Ok {A} a.
Global Arguments Throw {A} e.

Global Instance result_ret : MRet result := fun A a => Ok a.
Global Instance result_bind : MBind result := fun A B k m =>
  match m with Ok a => k a | Throw e => Throw e end.

Definition try_catch {A} (body : result A) (handler : exn → A) : A :=
  match body with Ok a => a | Throw e => handler e end.

End JS.

(** ** The host: what the browser supplies

    [RegExp_new src] is [new RegExp(src)], which throws a [SyntaxError] on a
    malformed source.  [String_match str re] is [str.match(re)] for a
    regular expression without the global flag: [None] is [null], and
    [Some m] is the match array, [m[0]] the matched text followed by the
    capture groups, a group that did not take part being [undefined],
    here [None].  [URL_hostname url] is [new URL(url).hostname], which
    throws a [TypeError] on an invalid URL. *)

Class Host := {
  regexp : Type;
  RegExp_new : string → JS.result regexp;
  String_match : string → regexp → option (list (option string));
  URL_hostname : string → JS.result string
}.

(** A reading of the clock: the fields [new Date()] is asked for. *)
Record JSDate := {
  getFullYear : nat;
  getMonth : nat;
  getDate : nat;
  getHours : nat;
  getMinutes : nat;
  getSeconds : nat
}.

(** ** utils/filenameUtils.js *)

Module FilenameUtils.
Import JS.

(** The character class of the sanitizer's regular expression. *)
Definition invalid_char (c : ascii) : bool :=
  bool_decide (c = "/"%char) || bool_decide (c = "\"%char)
  || bool_decide (c = ":"%char) || bool_decide (c = "*"%char)
  || bool_decide (c = "?"%char) || bool_decide (c = "034"%char)
  || bool_decide (c = "<"%char) || bool_decide (c = ">"%char)
  || bool_decide (c = "|"%char).

(** What the replacement does to one character. *)
Definition replaced (c : ascii) : ascii :=
  if invalid_char c then "_"%char else c.

(** [filename.replace(re, '_')] with the global character-class
    pattern of the source: every match is one character of the class. *)
Definition sanitizeFilename (filename : string) : string :=
  map_chars replaced filename.

Record SplitName := { name : string; ext : string }.

Definition splitFilename (filename : string) : SplitName :=
  let lastDotIndex := lastIndexOf filename "."%char in
  if lastDotIndex <=? 0 then
    {| name := filename; ext := "" |}
  else
    {| name := substring filename 0 lastDotIndex;
       ext := substring_from filename lastDotIndex |}.

(** [extractDomain]: the host name of the URL, or ['unknown']. *)
Definition extractDomain `{Host} (url : string) : string :=
  try_catch (hostname ← URL_hostname url; mret hostname)
            (fun _ => "unknown").

Definition pad2 (n : nat) : string := padStart0 2 (pretty n).

Definition getFormattedDate (now : JSDate) : string :=
  pretty (getFullYear now) +:+ pad2 (getMonth now + 1)
  +:+ pad2 (getDate now).

Definition getFormattedTime (now : JSDate) : string :=
  pad2 (getHours now) +:+ pad2 (getMinutes now) +:+ pad2 (getSeconds now).

(** The timestamp reads the clock twice, once per part. *)
Definition getFormattedTimestamp (now1 now2 : JSDate) : string :=
  getFormattedDate now1 +:+ "-" +:+ getFormattedTime now2.

(** *** The placeholder pattern [{name}]

    The source's pattern is: an opening brace, one or more characters other
    than a closing brace (captured, greedy), a closing brace; it is used
    with the global flag. *)

(** The longest run of characters other than a closing brace, and the
    rest of the string. *)
Fixpoint span_body (s : string) : string * string :=
  match s with
  | "" => ("", "")
  | String c s' =>
      if bool_decide (c = "}"%char) then ("", s)
      else let '(body, rest) := span_body s' in (String c body, rest)
  end.

(** One attempt of the pattern at the head of [s]; the result is the
    matched text, braces included.  The greedy run is the only candidate:
    a shorter run is followed by a character that is not a closing
    brace. *)
Definition match_here (s : string) : option string :=
  match s with
  | "" => None
  | String c s' =>
      if bool_decide (c = "{"%char) then
        match span_body s' with
        | (String b body, String _ _) =>
            Some (String "{"%char (String b body +:+ "}"))
        | _ => None
        end
      else None
  end.

(** All matches, left to right: after a match the search resumes behind
    it ([skip] counts the characters of the match still to pass), after a
    failure at the next character. *)
Fixpoint match_all_from (skip : nat) (s : string) : list string :=
  match s with
  | "" => []
  | String _ s' =>
      match skip with
      | S k => match_all_from k s'
      | O =>
          match match_here s with
          | Some m => m :: match_all_from (length m - 1) s'
          | None => match_all_from 0 s'
          end
      end
  end.

(** [pattern.match(re)] with the global flag: the array of all matched
    texts, or [null] when there is none. *)
Definition match_placeholders (pattern : string) : option (list string) :=
  match match_all_from 0 pattern with
  | [] => None
  | ms => Some ms
  end.

(** Step 1 of [processPattern]: the ordered placeholder names of the
    pattern, [ext] excluded. *)
Definition placeholdersInPattern (pattern : string) : list string :=
  filter (fun p => p ≠ "ext")
    ((fun p => slice p 1 (-1)) <$> default [] (match_placeholders pattern)).

(** Step 2: the value of each placeholder, in the pattern's order. *)
Definition processedValues (pattern : string) (values : gmap string string)
  : list string :=
  (fun ph => match values !! ph with Some v => v | None => "" end)
    <$> placeholdersInPattern pattern.

(** The values that are not the empty string, in order. *)
Definition nonEmptyValues (pattern : string) (values : gmap string string)
  : list string :=
  filter (fun v => v ≠ "") (processedValues pattern values).

(** Step 3: the values joined by the separator. *)
Definition joinedString (pattern : string) (values : gmap string string)
    (separator : string) : string :=
  if bool_decide (separator = "") then
    join (processedValues pattern values) ""
  else join (nonEmptyValues pattern values) separator.

Definition processPattern (pattern : string) (values : gmap string string)
    (separator : string) : string :=
  let extension := or_empty (values !! "ext") in
  joinedString pattern values separator +:+ extension.

(** *** Categories *)

Record CategoryRule := { rule_name : string; extensions : string }.

Definition DEFAULT_CATEGORY_RULES : list CategoryRule := [
  {| rule_name := "Documents"; extensions := "pdf,doc,docx,odt,rtf,txt,md" |};
  {| rule_name := "Spreadsheets"; extensions := "xls,xlsx,csv,ods,xml" |};
  {| rule_name := "Presentations"; extensions := "ppt,pptx,odp" |};
  {| rule_name := "Images";
     extensions := "jpg,jpeg,png,gif,bmp,svg,webp,heic,heif" |};
  {| rule_name := "Design & RAW";
     extensions := "psd,ai,eps,indd,sketch,fig,cr2,nef,arw,dng" |};
  {| rule_name := "Audio"; extensions := "mp3,wav,aac,flac,m4a,ogg" |};
  {| rule_name := "Videos"; extensions := "mp4,mov,avi,mkv,wmv,flv,webm" |};
  {| rule_name := "Archives"; extensions := "zip,rar,7z,tar,gz,bz2" |};
  {| rule_name := "Code";
     extensions := "html,css,js,json,py,java,cpp,sh,ps1" |};
  {| rule_name := "Installers"; extensions := "exe,dmg,pkg,msi,deb,app" |};
  {| rule_name := "Fonts"; extensions := "ttf,otf,woff,woff2" |}
].

(** The extension list of a rule as the loop body computes it. *)
Definition rule_extension_list (rule : CategoryRule) : list string :=
  (fun e => toLowerCase (trim e)) <$> split (extensions rule) ","%char.

(** The [for (const rule of rules)] loop with its early return. *)
Fixpoint findCategory (rules : list CategoryRule) (extension : string)
    (fallbackCategory : string) : string :=
  match rules with
  | [] => fallbackCategory
  | rule :: rest =>
      if truthy (rule_name rule) && truthy (extensions rule) then
        if array_includes (rule_extension_list rule) extension
        then rule_name rule
        else findCategory rest extension fallbackCategory
      else findCategory rest extension fallbackCategory
  end.

(** The [extension] constant of [getCategoryForFile]: the extension
    part without its dot, in lower case. *)
Definition fileExtension (filename : string) : string :=
  let ext := ext (splitFilename filename) in
  if startsWith ext "." then toLowerCase (substring_from ext 1)
  else toLowerCase ext.

(** The [rules] constant: the custom rules when they are a non-empty
    array, the defaults otherwise.  [customRules] is [None] for [null],
    [undefined] or a value that is not an array. *)
Definition effectiveRules (customRules : option (list CategoryRule))
  : list CategoryRule :=
  match customRules with
  | Some (rule :: rest) => rule :: rest
  | _ => DEFAULT_CATEGORY_RULES
  end.

Definition getCategoryForFile (filename : string)
    (customRules : option (list CategoryRule)) : string :=
  let fallbackCategory := "unknown" in
  if negb (truthy filename) then fallbackCategory
  else
    let extension := fileExtension filename in
    if negb (truthy extension) then fallbackCategory
    else
      let rules := effectiveRules customRules in
      findCategory rules extension fallbackCategory.

End FilenameUtils.

(** ** background/service-worker.js *)

Module ServiceWorker.
Import JS FilenameUtils.

Definition DEFAULT_PATTERN : string := "{date}{originalFilename}{ext}".
Definition DEFAULT_SEPARATOR : string := "_".

(** A user-defined placeholder as stored.  A field that is missing or
    falsy reads as the empty string, as the source's guards make it. *)
Record CustomPlaceholder := {
  cp_name : string;
  base : string;
  regex : string;
  keywords : string
}.

(** The module-level state of the worker. *)
Record Settings := {
  isEnabled : bool;
  userPattern : string;
  userSeparator : string;
  categoryRules : list CategoryRule;
  customPlaceholders : list CustomPlaceholder
}.

(** The download item: [url] and [referrer] may be absent. *)
Record DownloadItem := {
  filename : string;
  url : option string;
  referrer : option string
}.

(** The four readings of the clock a download makes, in order. *)
Record Clock := {
  now_date : JSDate;
  now_time : JSDate;
  now_stamp_date : JSDate;
  now_stamp_time : JSDate
}.

Section WithHost.
Context `{Host}.

(** [(m && m[1]) ? String(m[1]) : ''] *)
Definition capture1 (m : option (list (option string))) : string :=
  match m with
  | Some groups =>
      match groups !! 1%nat with
      | Some (Some g) => if truthy g then g else ""
      | _ => ""
      end
  | None => ""
  end.

(** The inner [try { ... } catch (e) { ... }] of the loop. *)
Definition extract (placeholders : gmap string string)
    (name regexStr sourceValue : string) : gmap string string :=
  try_catch
    (re ← RegExp_new regexStr;
     let m := String_match sourceValue re in
     mret (<[name := capture1 m]> placeholders))
    (fun _ => <[name := ""]> placeholders).

(** The keyword gate. *)
Definition gatePass (keywordsRaw sourceValue : string) : bool :=
  let keywords :=
    filter (fun k => (0 < length k)%nat) (trim <$> split keywordsRaw ","%char) in
  if bool_decide (List.length keywords = 0%nat) then true
  else existsb
         (fun k => includes (toLowerCase sourceValue) (toLowerCase k))
         keywords.

(** The [sourceValue] constant of the loop body: what the definition
    reads from the placeholder object. *)
Definition sourceValue (placeholders : gmap string string)
    (def : CustomPlaceholder) : string :=
  or_empty (placeholders !! base def).

(** One iteration of [for (const def of customPlaceholders)]; the result
    is the placeholder object after it. *)
Definition deriveOne (placeholders : gmap string string)
    (def : CustomPlaceholder) : gmap string string :=
  let name := cp_name def in
  let from := base def in
  let regexStr := regex def in
  let keywordsRaw := keywords def in
  if negb (truthy name) || negb (truthy from) || negb (truthy regexStr) then
    placeholders
  else
    let sourceValue := sourceValue placeholders def in
    if negb (truthy sourceValue) then <[name := ""]> placeholders
    else if negb (gatePass keywordsRaw sourceValue) then
      <[name := ""]> placeholders
    else extract placeholders name regexStr sourceValue.

(** The whole loop, in list order. *)
Definition deriveCustom (defs : list CustomPlaceholder)
    (placeholders : gmap string string) : gmap string string :=
  foldl deriveOne placeholders defs.

(** The object literal of built-in placeholder values. *)
Definition builtinPlaceholders (categoryRules : list CategoryRule)
    (clock : Clock) (downloadItem : DownloadItem) : gmap string string :=
  let originalFilename := filename downloadItem in
  let parts := splitFilename originalFilename in
  let sourceUrl := or_empty (url downloadItem) in
  let domain := extractDomain sourceUrl in
  let tabUrl := or_empty (referrer downloadItem) in
  let date := getFormattedDate (now_date clock) in
  let time := getFormattedTime (now_time clock) in
  let timestamp :=
    getFormattedTimestamp (now_stamp_date clock) (now_stamp_time clock) in
  let category := getCategoryForFile originalFilename (Some categoryRules) in
  <["ext" := FilenameUtils.ext parts]>
    (<["tabUrl" := tabUrl]>
       (<["sourceUrl" := sourceUrl]>
          (<["category" := category]>
             (<["originalFilename" := name parts]>
                (<["time" := time]>
                   (<["date" := date]>
                      (<["timestamp" := timestamp]>
                         (<["domain" := domain]> ∅)))))))).



End WithHost.

End ServiceWorker.

(** A host for running examples: the only well-formed pattern is the
    single group of one or more characters, which matches every non-empty
    string and captures all of it; a URL is its own host name. *)
Module ExampleHost.
Import JS.

#[local] Instance example_host : Host := {|
  regexp := unit;
  RegExp_new src :=
    if bool_decide (src = "(.+)") then Ok () else Throw SyntaxError;
  String_match str _ :=
    if truthy str then Some [Some str; Some str] else None;
  URL_hostname u := if truthy u then Ok u else Throw TypeError
|}.

End ExampleHost.

(** ** Auxiliary notions used to state the properties *)

Module Notions.

(** The nine characters the specification lists for the sanitizer. *)
Definition forbidden : list ascii :=
  ["\"; "/"; ":"; "*"; "?"; "034"; "<"; ">"; "|"]%char.

(** The classifier as the specification words it: the rules in list
    order, the name of the first rule whose list contains the extension,
    and ["unknown"] when there is none. *)
Fixpoint spec_first_match (rules : list FilenameUtils.CategoryRule)
    (extension : string) : string :=
  match rules with
  | [] => "unknown"
  | rule :: rest =>
      if JS.array_includes (FilenameUtils.rule_extension_list rule) extension
      then FilenameUtils.rule_name rule
      else spec_first_match rest extension
  end.

(** A pattern written as its parts: literal text and a placeholder name,
    repeated, then closing literal text. *)
Fixpoint pattern_of (parts : list (string * string)) (closing : string)
  : string :=
  match parts with
  | [] => closing
  | (literal, placeholder) :: rest =>
      literal +:+ "{" +:+ placeholder +:+ "}" +:+ pattern_of rest closing
  end.

(** [c] occurs in [s]. *)
Fixpoint mem_char (c : ascii) (s : string) : bool :=
  match s with
  | "" => false
  | String a s' => bool_decide (a = c) || mem_char c s'
  end.

(** No character of [v] occurs in [sep]: the value brings no part of a
    separator of its own. *)
Fixpoint separator_free (sep v : string) : bool :=
  match v with
  | "" => true
  | String c v' => negb (mem_char c sep) && separator_free sep v'
  end.

(** The length of the run of separator characters [s] starts with, and
    of the longest such run in [s]. *)
Fixpoint leading_run (sep s : string) : nat :=
  match s with
  | "" => 0
  | String c s' => if mem_char c sep then S (leading_run sep s') else 0
  end.

Fixpoint longest_run (sep s : string) : nat :=
  match s with
  | "" => 0
  | String _ s' => Nat.max (leading_run sep s) (longest_run sep s')
  end.

Fixpoint last_char (s : string) : option ascii :=
  match s with
  | "" => None
  | String c s' =>
      match last_char s' with Some d => Some d | None => Some c end
  end.

(** A definition the loop does not skip: name, base and regex are all
    non-empty. *)
Definition complete (def : ServiceWorker.CustomPlaceholder) : Prop :=
  ServiceWorker.cp_name def ≠ "" ∧ ServiceWorker.base def ≠ ""
  ∧ ServiceWorker.regex def ≠ "".


(** Example data. *)
Definition example_values : gmap string string :=
  <["ext" := ".pdf"]>
    (<["originalFilename" := "report"]> (<["date" := "20240115"]> ∅)).

Definition example_clock : ServiceWorker.Clock :=
  let now := {| getFullYear := 2024; getMonth := 0; getDate := 15;
                getHours := 9; getMinutes := 5; getSeconds := 7 |} in
  {| ServiceWorker.now_date := now; ServiceWorker.now_time := now;
     ServiceWorker.now_stamp_date := now;
     ServiceWorker.now_stamp_time := now |}.

Definition example_item : ServiceWorker.DownloadItem :=
  {| ServiceWorker.filename := "report.pdf";
     ServiceWorker.url := Some "www.example.com";
     ServiceWorker.referrer := None |}.

(** The bag [processDownload] starts from for the example item. *)
Definition example_bag : gmap string string :=
  @ServiceWorker.builtinPlaceholders ExampleHost.example_host
    FilenameUtils.DEFAULT_CATEGORY_RULES example_clock example_item.




(** A chain: the site from the domain, then its first label. *)
Definition site : ServiceWorker.CustomPlaceholder :=
  {| ServiceWorker.cp_name := "site"; ServiceWorker.base := "domain";
     ServiceWorker.regex := "(.+)"; ServiceWorker.keywords := "example" |}.


(** A definition whose regex does not compile. *)
Definition broken : ServiceWorker.CustomPlaceholder :=
  {| ServiceWorker.cp_name := "ticket"; ServiceWorker.base := "domain";
     ServiceWorker.regex := "([A-Z"; ServiceWorker.keywords := "" |}.

(** The first of the default rules. *)
Definition documents_rule : FilenameUtils.CategoryRule :=
  {| FilenameUtils.rule_name := "Documents";
     FilenameUtils.extensions := "pdf,doc,docx,odt,rtf,txt,md" |}.

(** Two rules listing the same extension, the first one without a name. *)
Definition unnamed_then_docs : list FilenameUtils.CategoryRule := [
  {| FilenameUtils.rule_name := ""; FilenameUtils.extensions := "pdf" |};
  {| FilenameUtils.rule_name := "Docs"; FilenameUtils.extensions := "pdf" |}
].

End Notions.

(** ** background/service-worker.js: the settings life cycle *)

(** The part of [chrome.storage.local] the worker uses; a key that is
    not stored is [None]. *)
Module Storage.

Record t := {
  enabled : option bool;
  pattern : option string;
  separator : option string;
  categoryRules : option (list FilenameUtils.CategoryRule);
  customPlaceholders : option (list ServiceWorker.CustomPlaceholder)
}.

Definition present {A} (o : option A) : bool :=
  match o with Some _ => true | None => false end.

Definition keep {A} (new old : option A) : option A :=
  match new with Some x => Some x | None => old end.

(** [chrome.storage.local.set(items)]: the keys of [items] replace the
    stored ones, the other keys stay. *)
Definition set (stored items : t) : t :=
  {| enabled := keep (enabled items) (enabled stored);
     pattern := keep (pattern items) (pattern stored);
     separator := keep (separator items) (separator stored);
     categoryRules := keep (categoryRules items) (categoryRules stored);
     customPlaceholders :=
       keep (customPlaceholders items) (customPlaceholders stored) |}.

End Storage.

Module Lifecycle.
Import JS.

(** The worker's own copy of the default rules. *)
Definition DEFAULT_CATEGORY_RULES : list FilenameUtils.CategoryRule := [
  {| FilenameUtils.rule_name := "Documents";
     FilenameUtils.extensions := "pdf,doc,docx,odt,rtf,txt,md" |};
  {| FilenameUtils.rule_name := "Spreadsheets";
     FilenameUtils.extensions := "xls,xlsx,csv,ods,xml" |};
  {| FilenameUtils.rule_name := "Presentations";
     FilenameUtils.extensions := "ppt,pptx,odp" |};
  {| FilenameUtils.rule_name := "Images";
     FilenameUtils.extensions := "jpg,jpeg,png,gif,bmp,svg,webp,heic,heif" |};
  {| FilenameUtils.rule_name := "Design & RAW";
     FilenameUtils.extensions := "psd,ai,eps,indd,sketch,fig,cr2,nef,arw,dng" |};
  {| FilenameUtils.rule_name := "Audio";
     FilenameUtils.extensions := "mp3,wav,aac,flac,m4a,ogg" |};
  {| FilenameUtils.rule_name := "Videos";
     FilenameUtils.extensions := "mp4,mov,avi,mkv,wmv,flv,webm" |};
  {| FilenameUtils.rule_name := "Archives";
     FilenameUtils.extensions := "zip,rar,7z,tar,gz,bz2" |};
  {| FilenameUtils.rule_name := "Code";
     FilenameUtils.extensions := "html,css,js,json,py,java,cpp,sh,ps1" |};
  {| FilenameUtils.rule_name := "Installers";
     FilenameUtils.extensions := "exe,dmg,pkg,msi,deb,app" |};
  {| FilenameUtils.rule_name := "Fonts";
     FilenameUtils.extensions := "ttf,otf,woff,woff2" |}
].

(** The callback of the initial [chrome.storage.local.get]: the state of
    the worker, and the items it writes back, if any. *)
Definition initialize (result : Storage.t)
  : ServiceWorker.Settings * option Storage.t :=
  let isEnabled :=
    match Storage.enabled result with Some b => b | None => true end in
  let userPattern :=
    match Storage.pattern result with
    | Some p => if truthy p then p else ServiceWorker.DEFAULT_PATTERN
    | None => ServiceWorker.DEFAULT_PATTERN
    end in
  let userSeparator :=
    match Storage.separator result with
    | Some s => s
    | None => ServiceWorker.DEFAULT_SEPARATOR
    end in
  let '(categoryRules, written) :=
    match Storage.categoryRules result with
    | Some rules => (rules, None)
    | None =>
        (DEFAULT_CATEGORY_RULES,
         Some {| Storage.enabled := None; Storage.pattern := None;
                 Storage.separator := None;
                 Storage.categoryRules := Some DEFAULT_CATEGORY_RULES;
                 Storage.customPlaceholders := None |})
    end in
  let customPlaceholders :=
    match Storage.customPlaceholders result with
    | Some defs => defs
    | None => []
    end in
  ({| ServiceWorker.isEnabled := isEnabled;
      ServiceWorker.userPattern := userPattern;
      ServiceWorker.userSeparator := userSeparator;
      ServiceWorker.categoryRules := categoryRules;
      ServiceWorker.customPlaceholders := customPlaceholders |},
   written).

(** The [settings] object the install handler builds from what is
    stored. *)
Definition defaultSettings (result : Storage.t) : Storage.t :=
  {| Storage.enabled :=
       match Storage.enabled result with
       | None => Some true
       | Some _ => None
       end;
     Storage.pattern :=
       if negb (truthy (or_empty (Storage.pattern result)))
       then Some ServiceWorker.DEFAULT_PATTERN else None;
     Storage.separator :=
       match Storage.separator result with
       | None => Some ServiceWorker.DEFAULT_SEPARATOR
       | Some _ => None
       end;
     Storage.categoryRules := None;
     Storage.customPlaceholders := None |}.

(** [Object.keys(settings).length > 0] *)
Definition has_keys (settings : Storage.t) : bool :=
  Storage.present (Storage.enabled settings)
  || Storage.present (Storage.pattern settings)
  || Storage.present (Storage.separator settings)
  || Storage.present (Storage.categoryRules settings)
  || Storage.present (Storage.customPlaceholders settings).

(** The install handler: the storage after it has run. *)
Definition onInstalled (stored : Storage.t) : Storage.t :=
  let settings := defaultSettings stored in
  if has_keys settings then Storage.set stored settings else stored.

End Lifecycle.

(** ** options/options.js: what the options page stores *)

Module Options.
Import JS.

(** [saveSettings]: the pattern built from the blocks of the sequence. *)
Definition finalPattern (blocks : list string) : string :=
  let patternPlaceholders :=
    join ((fun b => "{" +:+ b +:+ "}") <$> blocks) "" in
  patternPlaceholders +:+ "{ext}".

(** [loadSettings]: the blocks rebuilt from a stored pattern; only known
    placeholders get a block. *)
Definition loadedBlocks (PLACEHOLDERS : list string) (stored : option string)
  : list string :=
  let pattern :=
    if truthy (or_empty stored) then or_empty stored
    else ServiceWorker.DEFAULT_PATTERN in
  filter (fun p => p ∈ PLACEHOLDERS)
    (FilenameUtils.placeholdersInPattern pattern).

(** [saveCategoryRules]: a row is the text of its two inputs. *)
Fixpoint saveCategoryRules (rows : list (string * string))
  : list FilenameUtils.CategoryRule :=
  match rows with
  | [] => []
  | (nameInput, extensionsInput) :: rest =>
      let name := trim nameInput in
      let extensions := trim extensionsInput in
      if truthy name && truthy extensions then
        {| FilenameUtils.rule_name := name;
           FilenameUtils.extensions := extensions |}
        :: saveCategoryRules rest
      else saveCategoryRules rest
  end.


End Options.

(** ** Further notions *)

Module Shapes.

(** [s] contains none of the nine characters. *)
Definition clean (s : string) : bool :=
  forallb (fun c => negb (Notions.mem_char c s)) Notions.forbidden.

Definition is_digit (c : ascii) : bool :=
  let n := nat_of_ascii c in ((48 <=? n) && (n <=? 57))%nat.

Fixpoint all_digits (s : string) : bool :=
  match s with
  | "" => true
  | String c s' => is_digit c && all_digits s'
  end.

(** A reading an actual clock can give, in a four-digit year. *)
Definition plausible (now : JSDate) : Prop :=
  1000 ≤ Z.of_nat (getFullYear now) ≤ 9999
  ∧ (getMonth now ≤ 11 ∧ 1 ≤ getDate now ≤ 31 ∧ getHours now ≤ 23
     ∧ getMinutes now ≤ 59 ∧ getSeconds now ≤ 59)%nat.

#[global] Instance complete_decision (def : ServiceWorker.CustomPlaceholder) :
  Decision (Notions.complete def).
Proof. unfold Notions.complete. apply _. Defined.



End Shapes.

(** * Properties *)

Import FilenameUtils ServiceWorker.

(** ** Strings *)

Lemma app_nil_l (s : string) : "" +:+ s = s.
Proof. reflexivity. Qed.

Lemma app_cons (c : ascii) (s t : string) :
  String c s +:+ t = String c (s +:+ t).
Proof. reflexivity. Qed.

Lemma app_nil_r (s : string) : s +:+ "" = s.
Proof. induction s as [|c s IH]; [done|]. by rewrite app_cons, IH. Qed.

Lemma app_assoc (s t u : string) : (s +:+ t) +:+ u = s +:+ (t +:+ u).
Proof. induction s as [|c s IH]; [done|]. by rewrite !app_cons, IH. Qed.

Lemma length_app (s t : string) :
  JS.length (s +:+ t) = (JS.length s + JS.length t)%nat.
Proof. induction s as [|c s IH]; [done|]. rewrite app_cons. simpl. lia. Qed.

Lemma length_map_chars f (s : string) :
  JS.length (JS.map_chars f s) = JS.length s.
Proof. induction s as [|c s IH]; simpl; congruence. Qed.

Lemma get_map_chars f (s : string) (i : nat) :
  JS.get i (JS.map_chars f s) = f <$> JS.get i s.
Proof.
  revert i. induction s as [|c s IH]; intros [|i]; simpl; auto.
Qed.

Lemma take_drop (n : nat) (s : string) : JS.take n s +:+ JS.drop n s = s.
Proof.
  revert s. induction n as [|n IH]; intros [|c s]; simpl; try done.
  by rewrite app_cons, IH.
Qed.

Lemma take_all (n : nat) (s : string) :
  (JS.length s ≤ n)%nat → JS.take n s = s.
Proof.
  revert s. induction n as [|n IH]; intros [|c s]; simpl; intros Hn;
    try done; try lia.
  rewrite IH; [done|lia].
Qed.

Lemma length_drop (n : nat) (s : string) :
  JS.length (JS.drop n s) = (JS.length s - n)%nat.
Proof.
  revert s. induction n as [|n IH]; intros [|c s]; simpl; auto.
Qed.

Lemma drop_get (n : nat) (s : string) (c : ascii) :
  JS.get n s = Some c → ∃ t, JS.drop n s = String c t.
Proof.
  revert n. induction s as [|a s IH]; intros [|n]; simpl; try done.
  - intros [= ->]. eauto.
  - apply IH.
Qed.

(** [lastIndexOf] against its meaning: the result is [-1] and the
    character does not occur, or it is an index holding the character
    with no occurrence behind it. *)
Lemma lastIndexOf_range (s : string) (c : ascii) :
  -1 ≤ JS.lastIndexOf s c < Z.of_nat (JS.length s).
Proof.
  induction s as [|a s IH]; simpl; [lia|].
  destruct (0 <=? JS.lastIndexOf s c) eqn:E; [lia|].
  case_bool_decide; lia.
Qed.

Lemma lastIndexOf_get (s : string) (c : ascii) :
  0 ≤ JS.lastIndexOf s c →
  JS.get (Z.to_nat (JS.lastIndexOf s c)) s = Some c.
Proof.
  induction s as [|a s IH]; simpl; [lia|].
  destruct (0 <=? JS.lastIndexOf s c) eqn:E.
  - apply Z.leb_le in E. intros _.
    replace (Z.to_nat (JS.lastIndexOf s c + 1))
      with (S (Z.to_nat (JS.lastIndexOf s c))) by lia.
    simpl. auto.
  - case_bool_decide as Hac; [|lia]. intros _. simpl. by rewrite Hac.
Qed.

Lemma lastIndexOf_last (s : string) (c : ascii) (i : nat) :
  JS.lastIndexOf s c < Z.of_nat i → JS.get i s ≠ Some c.
Proof.
  revert i. induction s as [|a s IH]; intros i; simpl; [by destruct i|].
  pose proof (lastIndexOf_range s c) as Hr.
  destruct (0 <=? JS.lastIndexOf s c) eqn:E.
  - destruct i as [|i]; [lia|]. intros Hi. apply IH. lia.
  - apply Z.leb_gt in E. case_bool_decide as Hac.
    + destruct i as [|i]; [lia|]. intros _. apply IH. lia.
    + destruct i as [|i]; [intros _ [= ?]; done|]. intros _. apply IH. lia.
Qed.

Lemma lastIndexOf_absent (s : string) (c : ascii) :
  JS.includes s (String c "") = false → JS.lastIndexOf s c = -1.
Proof.
  induction s as [|a s IH]; simpl; [done|].
  intros Hn. apply orb_false_iff in Hn as [Ha Hs].
  rewrite (IH Hs). simpl.
  rewrite andb_true_r in Ha. by rewrite Ha.
Qed.

(** ** Sanitizer *)

Lemma invalid_char_forbidden (c : ascii) :
  invalid_char c = true ↔ c ∈ Notions.forbidden.
Proof.
  unfold invalid_char, Notions.forbidden.
  rewrite !orb_true_iff, !bool_decide_eq_true.
  rewrite !elem_of_cons, elem_of_nil. tauto.
Qed.

Lemma replaced_valid (c : ascii) : invalid_char (replaced c) = false.
Proof.
  unfold replaced. destruct (invalid_char c) eqn:E; [reflexivity|done].
Qed.

(** C7. For every string the sanitizer returns a string of the same
    length; position by position, a character of the nine-character set
    (backslash, slash, colon, star, question mark, double quote, the two
    angle brackets, bar) becomes an underscore and every other character
    is kept as it is; the specification's example evaluates as stated. *)
Theorem sanitize_characterised :
  (∀ s, JS.length (sanitizeFilename s) = JS.length s)
  ∧ (∀ s i, JS.get i (sanitizeFilename s) = replaced <$> JS.get i s)
  ∧ (∀ c, replaced c
          = if bool_decide (c ∈ Notions.forbidden) then "_"%char else c)
  ∧ length Notions.forbidden = 9%nat ∧ NoDup Notions.forbidden
  ∧ sanitizeFilename ("a/b:c*d?e" +:+ String "034"%char "f<g>h|i")
    = "a_b_c_d_e_f_g_h_i".
Proof.
  split; [|split; [|split; [|split; [|split]]]].
  - intros s. apply length_map_chars.
  - intros s i. apply get_map_chars.
  - intros c. unfold replaced. case_bool_decide as Hc.
    + apply invalid_char_forbidden in Hc. by rewrite Hc.
    + destruct (invalid_char c) eqn:E; [|done].
      apply invalid_char_forbidden in E. done.
  - reflexivity.
  - apply (bool_decide_unpack _). by vm_compute.
  - reflexivity.
Qed.

(** C8. Sanitizing is idempotent. *)
Theorem sanitize_idempotent (x : string) :
  sanitizeFilename (sanitizeFilename x) = sanitizeFilename x.
Proof.
  unfold sanitizeFilename. induction x as [|c x IH]; simpl; [done|].
  rewrite IH. f_equal.
  unfold replaced at 1. by rewrite (replaced_valid c).
Qed.

(** ** Filename splitter *)

(** C9. The two parts of a split filename concatenate to the filename,
    and the extension part is empty or starts with the dot. *)
Theorem splitFilename_lossless (filename : string) :
  name (splitFilename filename) +:+ ext (splitFilename filename) = filename
  ∧ (ext (splitFilename filename) = ""
     ∨ JS.startsWith (ext (splitFilename filename)) "." = true).
Proof.
  unfold splitFilename.
  pose proof (lastIndexOf_range filename "."%char) as Hr.
  destruct (JS.lastIndexOf filename "." <=? 0) eqn:E; simpl.
  - split; [apply app_nil_r|by left].
  - apply Z.leb_gt in E.
    unfold JS.substring_from, JS.substring.
    set (r := JS.lastIndexOf filename ".") in *.
    set (len := Z.of_nat (JS.length filename)) in *.
    replace (Z.min (Z.max 0 0) len) with 0 by lia.
    replace (Z.min (Z.max r 0) len) with r by lia.
    replace (Z.min (Z.max len 0) len) with len by lia.
    replace (Z.max 0 r - Z.min 0 r) with r by lia.
    replace (Z.min 0 r) with 0 by lia.
    replace (Z.max r len - Z.min r len) with (len - r) by lia.
    replace (Z.min r len) with r by lia.
    change (JS.drop (Z.to_nat 0) filename) with filename.
    rewrite (take_all (Z.to_nat (len - r))).
    2:{ rewrite length_drop. lia. }
    split; [apply take_drop|]. right.
    destruct (drop_get (Z.to_nat r) filename "."%char) as [t Ht].
    { apply lastIndexOf_get. lia. }
    rewrite Ht. reflexivity.
Qed.

(** C10. A filename whose only dot is its first character has no
    extension: the split keeps the whole string as the name, and the
    classifier answers ["unknown"] whatever the rules. *)
Theorem dotfile_has_no_extension (rest : string)
    (rules : option (list CategoryRule)) :
  JS.includes rest "." = false →
  splitFilename (String "."%char rest)
    = {| name := String "."%char rest; ext := "" |}
  ∧ getCategoryForFile (String "."%char rest) rules = "unknown".
Proof.
  intros Hrest.
  assert (splitFilename (String "."%char rest)
          = {| name := String "."%char rest; ext := "" |}) as Hsplit.
  { unfold splitFilename. simpl. by rewrite (lastIndexOf_absent _ _ Hrest). }
  split; [exact Hsplit|].
  unfold getCategoryForFile, fileExtension. by rewrite Hsplit.
Qed.

Lemma dotfile_has_no_extension_witness :
  JS.includes "gitignore" "." = false
  ∧ splitFilename ".gitignore" = {| name := ".gitignore"; ext := "" |}
  ∧ getCategoryForFile ".gitignore" (Some DEFAULT_CATEGORY_RULES) = "unknown".
Proof.
  split; [reflexivity|].
  apply (dotfile_has_no_extension "gitignore" (Some DEFAULT_CATEGORY_RULES)).
  reflexivity.
Defined.

(** ** Category classifier *)

Lemma fileExtension_no_dot (filename : string) :
  JS.includes filename "." = false → fileExtension filename = "".
Proof.
  intros Hn. unfold fileExtension, splitFilename.
  by rewrite (lastIndexOf_absent _ _ Hn).
Qed.

Lemma findCategory_none (rules : list CategoryRule) (extension fb : string) :
  Forall (fun r => extension ∉ rule_extension_list r) rules →
  findCategory rules extension fb = fb.
Proof.
  induction 1 as [|r rules Hr _ IH]; simpl; [done|].
  unfold JS.array_includes. rewrite (bool_decide_eq_false_2 _ Hr), IH.
  by destruct (_ && _).
Qed.

(** As the claim C2 states it: an empty or invalid rules list gives
    ["unknown"].  The code falls back to the default rules instead. *)
Lemma classify_empty_rules_counterexample :
  getCategoryForFile "report.pdf" (Some []) = "Documents"
  ∧ getCategoryForFile "report.pdf" None = "Documents"
  ∧ ¬ (∀ filename rules,
         rules = Some [] ∨ rules = None →
         getCategoryForFile filename rules = "unknown").
Proof.
  split; [reflexivity|]. split; [reflexivity|].
  intros Hall. specialize (Hall "report.pdf" None (or_intror eq_refl)).
  discriminate Hall.
Qed.

(** C2, amended. The classifier answers ["unknown"] when the filename
    has no dot, when its extension is empty, and when no rule of the list
    in force contains the extension, the list in force being the supplied
    rules if they are a non-empty array and the default rules otherwise. *)
Theorem classify_unknown (filename : string)
    (customRules : option (list CategoryRule)) :
  JS.includes filename "." = false
  ∨ fileExtension filename = ""
  ∨ Forall (fun r => fileExtension filename ∉ rule_extension_list r)
      (effectiveRules customRules) →
  getCategoryForFile filename customRules = "unknown".
Proof.
  intros Hcase. unfold getCategoryForFile.
  destruct (JS.truthy filename); simpl; [|done].
  destruct Hcase as [Hn|[He|Hr]].
  - by rewrite (fileExtension_no_dot _ Hn).
  - by rewrite He.
  - destruct (JS.truthy (fileExtension filename)); simpl; [|done].
    by apply findCategory_none.
Qed.

Lemma classify_unknown_witness :
  (JS.includes "movie.xyz" "." = false
   ∨ fileExtension "movie.xyz" = ""
   ∨ Forall (fun r => fileExtension "movie.xyz" ∉ rule_extension_list r)
       (effectiveRules (Some [])))
  ∧ getCategoryForFile "movie.xyz" (Some []) = "unknown".
Proof.
  assert (Forall (fun r => fileExtension "movie.xyz" ∉ rule_extension_list r)
            (effectiveRules (Some []))) as Hr.
  { apply (bool_decide_unpack _). by vm_compute. }
  split; [by right; right|].
  apply (classify_unknown "movie.xyz" (Some [])). by right; right.
Defined.

(** A rule that lists a non-empty extension has a non-empty extensions
    field, so the guard of the loop only ever skips it for its name. *)
Lemma listed_extension_field (rule : CategoryRule) (extension : string) :
  extension ≠ "" →
  extension ∈ rule_extension_list rule →
  JS.truthy (extensions rule) = true.
Proof.
  intros Hne Hin. unfold rule_extension_list in Hin.
  destruct (extensions rule) as [|c s]; [|done].
  simpl in Hin. apply list_elem_of_singleton in Hin. done.
Qed.

Lemma truthy_nonempty (s : string) : JS.truthy s = true ↔ s ≠ "".
Proof. by destruct s. Qed.

Lemma findCategory_first (pre post : list CategoryRule) (rule : CategoryRule)
    (extension fb : string) :
  extension ≠ "" →
  Forall (fun r => rule_name r = "" ∨ extension ∉ rule_extension_list r) pre →
  rule_name rule ≠ "" →
  extension ∈ rule_extension_list rule →
  findCategory (pre ++ rule :: post) extension fb = rule_name rule.
Proof.
  intros Hne Hpre Hname Hin.
  induction Hpre as [|r pre Hr _ IH]; simpl.
  - apply truthy_nonempty in Hname. rewrite Hname.
    rewrite (listed_extension_field rule extension Hne Hin). simpl.
    unfold JS.array_includes. by rewrite bool_decide_eq_true_2.
  - destruct Hr as [Hr|Hr].
    + rewrite Hr. simpl. exact IH.
    + unfold JS.array_includes. rewrite (bool_decide_eq_false_2 _ Hr).
      by destruct (_ && _).
Qed.

(** As the claim C5 states it, the answer is the name of the first rule
    whose list contains the extension.  The loop skips a rule without a
    name, so a later rule can win. *)
Lemma classify_first_match_counterexample :
  Notions.spec_first_match Notions.unnamed_then_docs (fileExtension "a.pdf")
  = ""
  ∧ getCategoryForFile "a.pdf" (Some Notions.unnamed_then_docs) = "Docs"
  ∧ getCategoryForFile "a.pdf" (Some Notions.unnamed_then_docs)
    ≠ Notions.spec_first_match Notions.unnamed_then_docs
        (fileExtension "a.pdf").
Proof. by vm_compute. Qed.

(** C5, amended. For a filename with an extension the classifier goes
    through the list in force in order (the supplied rules if they are a
    non-empty array, the defaults otherwise), takes each rule's extensions
    field split on commas, trimmed and lower-cased, and answers the name
    of the first rule that has a non-empty name and whose list contains
    the lower-cased extension, whatever rules follow it; rules without a
    name are passed over. *)
Theorem classify_first_match (filename : string)
    (customRules : option (list CategoryRule))
    (pre post : list CategoryRule) (rule : CategoryRule) :
  fileExtension filename ≠ "" →
  effectiveRules customRules = pre ++ rule :: post →
  Forall (fun r => rule_name r = ""
                   ∨ fileExtension filename ∉ rule_extension_list r) pre →
  rule_name rule ≠ "" →
  fileExtension filename ∈ rule_extension_list rule →
  getCategoryForFile filename customRules = rule_name rule.
Proof.
  intros Hext Hrules Hpre Hname Hin. unfold getCategoryForFile.
  destruct filename as [|c filename]; [done|]. simpl.
  apply truthy_nonempty in Hext as Ht. rewrite Ht. simpl.
  rewrite Hrules. by apply findCategory_first.
Qed.

Lemma classify_first_match_witness :
  fileExtension "report.PDF" ≠ ""
  ∧ effectiveRules (Some DEFAULT_CATEGORY_RULES)
    = [] ++ Notions.documents_rule :: tail DEFAULT_CATEGORY_RULES
  ∧ rule_name Notions.documents_rule ≠ ""
  ∧ fileExtension "report.PDF" ∈ rule_extension_list Notions.documents_rule
  ∧ getCategoryForFile "report.PDF" (Some DEFAULT_CATEGORY_RULES)
    = "Documents".
Proof.
  set (rule := Notions.documents_rule).
  assert (fileExtension "report.PDF" ∈ rule_extension_list rule) as Hin.
  { apply (bool_decide_unpack _). by vm_compute. }
  split; [done|]. split; [reflexivity|]. split; [done|]. split; [exact Hin|].
  apply (classify_first_match "report.PDF" (Some DEFAULT_CATEGORY_RULES)
           [] (tail DEFAULT_CATEGORY_RULES) rule);
    [done|reflexivity|constructor|done|exact Hin].
Defined.

(** The loop is the specification's first-match search over the rules
    that have a name. *)
Lemma findCategory_refines (rules : list CategoryRule) (extension : string) :
  extension ≠ "" →
  findCategory rules extension "unknown"
  = Notions.spec_first_match (filter (fun r => rule_name r ≠ "") rules)
      extension.
Proof.
  intros Hne. induction rules as [|r rules IH]; simpl; [done|].
  destruct (decide (rule_name r = "")) as [Hr|Hr].
  - rewrite filter_cons_False by (intros ?; done). by rewrite Hr.
  - rewrite filter_cons_True by done. simpl.
    apply truthy_nonempty in Hr as ->. simpl.
    unfold JS.array_includes. case_bool_decide as Hin.
    + by rewrite (listed_extension_field r extension Hne Hin).
    + rewrite IH. by destruct (JS.truthy (extensions r)).
Qed.

(** ** Pattern parser *)

Lemma includes_cons_false (c : ascii) (s k : string) :
  JS.includes (String c s) k = false →
  JS.startsWith (String c s) k = false ∧ JS.includes s k = false.
Proof. simpl. intros Hn. by apply orb_false_iff in Hn. Qed.

Lemma no_char_head (c d : ascii) (s : string) :
  JS.includes (String c s) (String d "") = false →
  c ≠ d ∧ JS.includes s (String d "") = false.
Proof.
  intros Hn. apply includes_cons_false in Hn as [Hc Hs]. split; [|done].
  simpl in Hc. rewrite andb_true_r in Hc. by apply bool_decide_eq_false in Hc.
Qed.

Lemma span_body_name (placeholder rest : string) :
  JS.includes placeholder "}" = false →
  span_body (placeholder +:+ "}" +:+ rest)
  = (placeholder, String "}"%char rest).
Proof.
  induction placeholder as [|c s IH]; intros Hn.
  - reflexivity.
  - apply no_char_head in Hn as [Hc Hs]. rewrite app_cons. simpl.
    rewrite (bool_decide_eq_false_2 _ Hc). by rewrite (IH Hs).
Qed.

Lemma match_here_token (placeholder rest : string) :
  placeholder ≠ "" →
  JS.includes placeholder "}" = false →
  match_here ("{" +:+ placeholder +:+ "}" +:+ rest)
  = Some ("{" +:+ placeholder +:+ "}").
Proof.
  intros Hne Hn. rewrite app_cons, app_nil_l. simpl.
  rewrite (span_body_name _ _ Hn).
  destruct placeholder as [|c s]; [done|]. reflexivity.
Qed.

Lemma match_all_skip (passed s : string) :
  match_all_from (JS.length passed) (passed +:+ s) = match_all_from 0 s.
Proof.
  induction passed as [|c passed IH]; [done|].
  rewrite app_cons. simpl. exact IH.
Qed.

Lemma match_here_other (c : ascii) (s : string) :
  c ≠ "{"%char → match_here (String c s) = None.
Proof. intros Hc. simpl. by rewrite (bool_decide_eq_false_2 _ Hc). Qed.

Lemma match_all_literal (literal s : string) :
  JS.includes literal "{" = false →
  match_all_from 0 (literal +:+ s) = match_all_from 0 s.
Proof.
  induction literal as [|c literal IH]; intros Hn; [done|].
  apply no_char_head in Hn as [Hc Hs]. rewrite app_cons.
  cbn [match_all_from]. rewrite (match_here_other _ _ Hc). by apply IH.
Qed.

Lemma match_all_token (placeholder rest : string) :
  placeholder ≠ "" →
  JS.includes placeholder "}" = false →
  match_all_from 0 ("{" +:+ placeholder +:+ "}" +:+ rest)
  = ("{" +:+ placeholder +:+ "}") :: match_all_from 0 rest.
Proof.
  intros Hne Hn.
  pose proof (match_here_token placeholder rest Hne Hn) as Hm.
  rewrite app_cons, app_nil_l in *. cbn [match_all_from]. rewrite Hm.
  f_equal.
  replace (JS.length ("{" +:+ placeholder +:+ "}") - 1)%nat
    with (JS.length (placeholder +:+ "}")).
  2:{ rewrite (app_cons "{" ""), app_nil_l. simpl. lia. }
  rewrite <- (match_all_skip (placeholder +:+ "}") rest).
  by rewrite app_assoc.
Qed.

(** Braces that form no placeholder: an empty pair is passed over, and
    without a closing brace nothing matches. *)
Lemma match_all_empty_braces (s : string) :
  match_all_from 0 ("{}" +:+ s) = match_all_from 0 s.
Proof. reflexivity. Qed.

Lemma span_body_unclosed (s : string) :
  JS.includes s "}" = false → span_body s = (s, "").
Proof.
  induction s as [|c s IH]; intros Hn; [done|].
  apply no_char_head in Hn as [Hc Hs]. simpl.
  by rewrite (bool_decide_eq_false_2 _ Hc), (IH Hs).
Qed.

Lemma match_all_unclosed (s : string) :
  JS.includes s "}" = false → match_all_from 0 s = [].
Proof.
  induction s as [|c s IH]; intros Hn; [done|].
  apply no_char_head in Hn as [Hc Hs]. cbn [match_all_from].
  assert (match_here (String c s) = None) as ->.
  { simpl. case_bool_decide; [|done].
    rewrite (span_body_unclosed s Hs). by destruct s. }
  by apply IH.
Qed.

Lemma match_all_pattern_of (parts : list (string * string)) (closing : string) :
  Forall (fun part => JS.includes part.1 "{" = false
                      ∧ part.2 ≠ ""
                      ∧ JS.includes part.2 "}" = false) parts →
  JS.includes closing "{" = false →
  match_all_from 0 (Notions.pattern_of parts closing)
  = (fun part => "{" +:+ part.2 +:+ "}") <$> parts.
Proof.
  intros Hparts Hclosing.
  induction Hparts as [|[literal placeholder] parts (Hl & Hne & Hp) _ IH];
    simpl.
  - rewrite <- (app_nil_r closing). by rewrite match_all_literal.
  - rewrite match_all_literal by done.
    rewrite match_all_token by done. by rewrite IH.
Qed.

Lemma take_app_length (s t : string) : JS.take (JS.length s) (s +:+ t) = s.
Proof.
  induction s as [|c s IH].
  - by destruct t.
  - rewrite app_cons. simpl. by rewrite IH.
Qed.

Lemma slice_braces (placeholder : string) :
  JS.slice ("{" +:+ placeholder +:+ "}") 1 (-1) = placeholder.
Proof.
  unfold JS.slice. rewrite app_cons, app_nil_l. cbn [JS.length].
  rewrite length_app. cbn [JS.length].
  set (n := JS.length placeholder).
  replace (1 <? 0) with false by done.
  replace (-1 <? 0) with true by done.
  replace (Z.to_nat (Z.min 1 (Z.of_nat (S (n + 1))))) with 1%nat by lia.
  replace (Z.to_nat _) with n by lia.
  simpl. apply take_app_length.
Qed.

Lemma match_placeholders_default (pattern : string) :
  default [] (match_placeholders pattern) = match_all_from 0 pattern.
Proof. unfold match_placeholders. by destruct (match_all_from 0 pattern). Qed.

(** C6. For a pattern made of literal text (without opening brace) and
    placeholders [{name}] (the name non-empty and without closing brace),
    the parser returns the names in the order of the pattern, duplicates
    kept, braces stripped, every occurrence of [ext] removed; the
    specification's example evaluates as stated. *)
Theorem placeholders_in_order (parts : list (string * string))
    (closing : string) :
  Forall (fun part => JS.includes part.1 "{" = false
                      ∧ part.2 ≠ ""
                      ∧ JS.includes part.2 "}" = false) parts →
  JS.includes closing "{" = false →
  placeholdersInPattern (Notions.pattern_of parts closing)
  = filter (fun p => p ≠ "ext") (parts.*2)
  ∧ placeholdersInPattern "{date}_{originalFilename}{ext}"
    = ["date"; "originalFilename"].
Proof.
  intros Hparts Hclosing. split; [|reflexivity].
  unfold placeholdersInPattern.
  rewrite match_placeholders_default, match_all_pattern_of by done.
  f_equal. rewrite <- list_fmap_compose. apply list_fmap_ext.
  intros i [literal placeholder] _. simpl. apply slice_braces.
Qed.

Lemma placeholders_in_order_witness :
  Forall (fun part => JS.includes part.1 "{" = false
                      ∧ part.2 ≠ ""
                      ∧ JS.includes part.2 "}" = false)
    [("", "date"); ("_", "ext"); ("-", "date"); ("", "originalFilename")]
  ∧ JS.includes ".bak" "{" = false
  ∧ placeholdersInPattern "{date}_{ext}-{date}{originalFilename}.bak"
    = ["date"; "date"; "originalFilename"].
Proof.
  assert (Forall (fun part => JS.includes part.1 "{" = false
                      ∧ part.2 ≠ ""
                      ∧ JS.includes part.2 "}" = false)
    [("", "date"); ("_", "ext"); ("-", "date"); ("", "originalFilename")])
    as Hparts.
  { repeat constructor; done. }
  split; [exact Hparts|]. split; [reflexivity|].
  exact (proj1 (placeholders_in_order
    [("", "date"); ("_", "ext"); ("-", "date"); ("", "originalFilename")]
    ".bak" Hparts eq_refl)).
Defined.

(** ** Filename assembler *)

Section Runs.
Import Notions.
Variable sep : string.

Lemma leading_run_sep (t : string) :
  leading_run sep (sep +:+ t) = (JS.length sep + leading_run sep t)%nat
  ∧ ∀ p, (∀ c, mem_char c p = true → mem_char c sep = true) →
         leading_run sep (p +:+ t) = (JS.length p + leading_run sep t)%nat.
Proof.
  assert (∀ p, (∀ c, mem_char c p = true → mem_char c sep = true) →
     leading_run sep (p +:+ t) = (JS.length p + leading_run sep t)%nat) as Hp.
  { induction p as [|c p IH]; intros Hsub; [done|].
    rewrite app_cons. simpl.
    rewrite (Hsub c) by (simpl; by rewrite bool_decide_eq_true_2).
    rewrite IH; [done|]. intros d Hd. apply Hsub. simpl. by rewrite Hd, orb_true_r. }
  split; [apply Hp; auto|exact Hp].
Qed.

Lemma longest_run_prefix (p t : string) :
  (∀ c, mem_char c p = true → mem_char c sep = true) →
  (longest_run sep (p +:+ t)
   ≤ Nat.max (JS.length p + leading_run sep t) (longest_run sep t))%nat.
Proof.
  induction p as [|c p IH]; intros Hsub.
  - rewrite app_nil_l. simpl. lia.
  - assert (∀ d, mem_char d p = true → mem_char d sep = true) as Hsub'.
    { intros d Hd. apply Hsub. simpl. by rewrite Hd, orb_true_r. }
    specialize (IH Hsub').
    pose proof (proj2 (leading_run_sep t) (String c p) Hsub) as Hl.
    rewrite app_cons in *. cbn [longest_run]. rewrite Hl.
    cbn [JS.length] in *. lia.
Qed.

Lemma longest_run_value (v t : string) :
  separator_free sep v = true →
  longest_run sep (v +:+ t) = longest_run sep t.
Proof.
  induction v as [|c v IH]; intros Hv; [done|].
  simpl in Hv. apply andb_true_iff in Hv as [Hc Hv].
  rewrite app_cons. cbn [longest_run leading_run].
  apply negb_true_iff in Hc. rewrite Hc. simpl. by apply IH.
Qed.

Lemma leading_run_value (v t : string) :
  v ≠ "" → separator_free sep v = true → leading_run sep (v +:+ t) = 0%nat.
Proof.
  destruct v as [|c v]; [done|]. intros _ Hv.
  simpl in Hv. apply andb_true_iff in Hv as [Hc Hv].
  rewrite app_cons. simpl. apply negb_true_iff in Hc. by rewrite Hc.
Qed.

(** What a joined list of non-empty separator-free values looks like:
    it starts with a value, and no run of separator characters is longer
    than one separator. *)
Lemma join_runs (vs : list string) :
  Forall (fun v => v ≠ "") vs →
  Forall (fun v => separator_free sep v = true) vs →
  leading_run sep (JS.join vs sep) = 0%nat
  ∧ (longest_run sep (JS.join vs sep) ≤ JS.length sep)%nat.
Proof.
  intros Hne Hfree. induction vs as [|v vs IH]; [simpl; lia|].
  inversion Hne as [|? ? Hv Hne']; subst.
  inversion Hfree as [|? ? Hfv Hfree']; subst.
  specialize (IH Hne' Hfree') as [IHl IHr].
  destruct vs as [|w vs].
  - simpl. rewrite <- (app_nil_r v).
    rewrite leading_run_value, longest_run_value by done. simpl. lia.
  - change (JS.join (v :: w :: vs) sep)
      with (v +:+ sep +:+ JS.join (w :: vs) sep).
    rewrite leading_run_value, longest_run_value by done.
    split; [done|].
    etrans; [apply longest_run_prefix; auto|]. lia.
Qed.

Lemma startsWith_leading_run (s p : string) :
  (∀ c, mem_char c p = true → mem_char c sep = true) →
  JS.startsWith s p = true → (JS.length p ≤ leading_run sep s)%nat.
Proof.
  revert s. induction p as [|b p IH]; intros s Hsub Hs; [simpl; lia|].
  destruct s as [|a s]; [done|]. simpl in Hs.
  apply andb_true_iff in Hs as [Hab Hs]. apply bool_decide_eq_true in Hab.
  subst a. simpl.
  rewrite (Hsub b) by (simpl; by rewrite bool_decide_eq_true_2).
  apply le_n_S, IH; [|done].
  intros d Hd. apply Hsub. simpl. by rewrite Hd, orb_true_r.
Qed.

Lemma includes_longest_run (s p : string) :
  (∀ c, mem_char c p = true → mem_char c sep = true) →
  JS.includes s p = true → (JS.length p ≤ longest_run sep s)%nat.
Proof.
  intros Hsub. induction s as [|a s IH]; intros Hs.
  - destruct p; [simpl; lia|done].
  - cbn [JS.includes] in Hs. apply orb_true_iff in Hs as [Hs|Hs].
    + apply (startsWith_leading_run _ _ Hsub) in Hs.
      cbn [longest_run]. lia.
    + specialize (IH Hs). cbn [longest_run]. lia.
Qed.

End Runs.

Lemma mem_char_app (c : ascii) (s t : string) :
  Notions.mem_char c (s +:+ t) = Notions.mem_char c s || Notions.mem_char c t.
Proof.
  induction s as [|a s IH]; [done|].
  rewrite app_cons. simpl. by rewrite IH, orb_assoc.
Qed.

Lemma last_char_app (s t : string) :
  Notions.last_char (s +:+ t)
  = match Notions.last_char t with
    | Some d => Some d
    | None => Notions.last_char s
    end.
Proof.
  induction s as [|a s IH].
  { rewrite app_nil_l. by destruct (Notions.last_char t). }
  rewrite app_cons. cbn [Notions.last_char]. rewrite IH.
  by destruct (Notions.last_char t).
Qed.

Lemma last_char_mem (s : string) (c : ascii) :
  Notions.last_char s = Some c → Notions.mem_char c s = true.
Proof.
  induction s as [|a s IH]; [done|]. simpl.
  destruct (Notions.last_char s) as [d|].
  - intros [= ->]. by rewrite IH, orb_true_r.
  - intros [= ->]. by rewrite bool_decide_eq_true_2.
Qed.

Lemma last_char_nonempty (s : string) :
  s ≠ "" → is_Some (Notions.last_char s).
Proof.
  destruct s as [|a s]; [done|]. intros _. simpl.
  destruct (Notions.last_char s); eauto.
Qed.

Lemma endsWith_last_char (s p : string) :
  p ≠ "" → JS.endsWith s p = true →
  Notions.last_char s = Notions.last_char p.
Proof.
  intros Hp. induction s as [|a s IH]; simpl.
  - rewrite orb_false_r. intros Heq%bool_decide_eq_true. by subst.
  - intros [Heq%bool_decide_eq_true|Hs]%orb_true_iff; [by subst|].
    rewrite (IH Hs).
    destruct (last_char_nonempty p Hp) as [d ->]. done.
Qed.

Lemma separator_free_mem (sep v : string) (c : ascii) :
  Notions.separator_free sep v = true →
  Notions.mem_char c v = true → Notions.mem_char c sep = false.
Proof.
  induction v as [|a v IH]; [done|]. simpl.
  intros [Ha Hv]%andb_true_iff [Hc%bool_decide_eq_true|Hc]%orb_true_iff.
  - subst. by apply negb_true_iff.
  - by apply IH.
Qed.

(** A joined non-empty list of non-empty separator-free values ends
    with a character of a value. *)
Lemma join_last_char (sep : string) (vs : list string) :
  vs ≠ [] →
  Forall (fun v => v ≠ "") vs →
  Forall (fun v => Notions.separator_free sep v = true) vs →
  ∃ c, Notions.last_char (JS.join vs sep) = Some c
       ∧ Notions.mem_char c sep = false.
Proof.
  intros Hvs Hne Hfree. induction vs as [|v vs IH]; [done|].
  inversion Hne as [|? ? Hv Hne']; subst.
  inversion Hfree as [|? ? Hfv Hfree']; subst.
  destruct vs as [|w vs].
  - simpl. destruct (last_char_nonempty v Hv) as [c Hc].
    exists c. split; [done|].
    eapply separator_free_mem; [done|]. by apply last_char_mem.
  - destruct (IH ltac:(done) Hne' Hfree') as (c & Hc & Hcs).
    exists c. split; [|done].
    change (JS.join (v :: w :: vs) sep)
      with (v +:+ sep +:+ JS.join (w :: vs) sep).
    by rewrite !last_char_app, Hc.
Qed.

(** C1. With a non-empty separator the joined string, before the
    extension is appended, is the join of exactly the non-empty values,
    so no separator is written for an empty value.  When the values bring
    no separator character of their own, the joined string therefore
    contains no two consecutive separators, and neither starts nor ends
    with the separator. *)
Theorem joined_without_empty_values (pattern : string)
    (values : gmap string string) (separator : string) :
  separator ≠ "" →
  joinedString pattern values separator
  = JS.join (nonEmptyValues pattern values) separator
  ∧ Forall (fun v => v ≠ "") (nonEmptyValues pattern values)
  ∧ (∀ v, v ∈ nonEmptyValues pattern values
          ↔ v ∈ processedValues pattern values ∧ v ≠ "")
  ∧ (Forall (fun v => Notions.separator_free separator v = true)
       (nonEmptyValues pattern values) →
     JS.includes (joinedString pattern values separator)
       (separator +:+ separator) = false
     ∧ JS.startsWith (joinedString pattern values separator) separator
       = false
     ∧ JS.endsWith (joinedString pattern values separator) separator
       = false).
Proof.
  intros Hsep.
  assert (joinedString pattern values separator
          = JS.join (nonEmptyValues pattern values) separator) as Hj.
  { unfold joinedString. by rewrite bool_decide_eq_false_2. }
  assert (Forall (fun v => v ≠ "") (nonEmptyValues pattern values)) as Hne.
  { apply Forall_forall. intros v Hv.
    unfold nonEmptyValues in Hv. by apply list_elem_of_filter in Hv as [? _]. }
  split; [exact Hj|]. split; [exact Hne|]. split.
  { intros v. unfold nonEmptyValues. rewrite list_elem_of_filter. tauto. }
  intros Hfree. rewrite Hj.
  destruct (join_runs separator _ Hne Hfree) as [Hlead Hlong].
  assert (0 < JS.length separator)%nat as Hlen.
  { destruct separator; [done|simpl; lia]. }
  split; [|split].
  - destruct (JS.includes _ _) eqn:E; [|done].
    apply (includes_longest_run separator) in E.
    + rewrite length_app in E. lia.
    + intros c. rewrite mem_char_app. by intros [?|?]%orb_true_iff.
  - destruct (JS.startsWith _ _) eqn:E; [|done].
    apply (startsWith_leading_run separator) in E; [lia|auto].
  - destruct (JS.endsWith _ _) eqn:E; [|done].
    apply (endsWith_last_char _ _ Hsep) in E.
    destruct (last_char_nonempty separator Hsep) as [d Hd].
    destruct (nonEmptyValues pattern values) as [|v vs] eqn:Evs.
    + simpl in E. by rewrite Hd in E.
    + destruct (join_last_char separator (v :: vs)) as (c & Hc & Hcs);
        [done..|].
      rewrite Hc, Hd in E. injection E as ->.
      apply last_char_mem in Hd. by rewrite Hd in Hcs.
Qed.

Lemma joined_without_empty_values_witness :
  "_" ≠ ""
  ∧ Forall (fun v => Notions.separator_free "_" v = true)
      (nonEmptyValues "{date}{missing}{originalFilename}{ext}"
         Notions.example_values)
  ∧ joinedString "{date}{missing}{originalFilename}{ext}"
      Notions.example_values "_" = "20240115_report"
  ∧ JS.includes
      (joinedString "{date}{missing}{originalFilename}{ext}"
         Notions.example_values "_") ("_" +:+ "_") = false.
Proof.
  assert ("_" ≠ "") as Hsep by done.
  assert (Forall (fun v => Notions.separator_free "_" v = true)
      (nonEmptyValues "{date}{missing}{originalFilename}{ext}"
         Notions.example_values)) as Hfree.
  { apply (bool_decide_unpack _). by vm_compute. }
  destruct (joined_without_empty_values
              "{date}{missing}{originalFilename}{ext}"
              Notions.example_values "_" Hsep) as (Hj & _ & _ & Hrest).
  destruct (Hrest Hfree) as (Hinc & _ & _).
  split; [exact Hsep|]. split; [exact Hfree|]. split; [|exact Hinc].
  rewrite Hj. reflexivity.
Defined.

(** ** Custom placeholder deriver *)

Section Deriver.
Context `{Host}.
Import Notions.


Lemma deriveCustom_cons (def : CustomPlaceholder)
    (defs : list CustomPlaceholder) (bag : gmap string string) :
  deriveCustom (def :: defs) bag = deriveCustom defs (deriveOne bag def).
Proof. reflexivity. Qed.

Lemma complete_guard (def : CustomPlaceholder) :
  complete def →
  negb (JS.truthy (cp_name def)) || negb (JS.truthy (base def))
  || negb (JS.truthy (regex def)) = false.
Proof.
  intros (Hn & Hb & Hr). apply truthy_nonempty in Hn, Hb, Hr.
  by rewrite Hn, Hb, Hr.
Qed.

Lemma incomplete_guard (def : CustomPlaceholder) :
  ¬ complete def →
  negb (JS.truthy (cp_name def)) || negb (JS.truthy (base def))
  || negb (JS.truthy (regex def)) = true.
Proof.
  intros Hnc. unfold complete in Hnc. rewrite <- !truthy_nonempty in Hnc.
  destruct (JS.truthy (cp_name def)), (JS.truthy (base def)),
    (JS.truthy (regex def)); try done.
  exfalso. by apply Hnc.
Qed.

Lemma complete_dec (def : CustomPlaceholder) : complete def ∨ ¬ complete def.
Proof.
  unfold complete.
  destruct (decide (cp_name def = "")), (decide (base def = "")),
    (decide (regex def = "")); tauto.
Qed.

(** A skipped definition leaves the bag as it is. *)
Lemma deriveOne_skipped (bag : gmap string string) (def : CustomPlaceholder) :
  ¬ complete def → deriveOne bag def = bag.
Proof. intros Hnc. unfold deriveOne. by rewrite incomplete_guard. Qed.

(** A definition that is not skipped writes its own key and no other. *)
Lemma deriveOne_writes (bag : gmap string string) (def : CustomPlaceholder) :
  complete def →
  ∃ v, deriveOne bag def = <[cp_name def := v]> bag.
Proof.
  intros Hc. unfold deriveOne. rewrite (complete_guard def Hc).
  destruct (negb (JS.truthy (sourceValue bag def))); [by eexists|].
  destruct (negb (gatePass _ _)); [by eexists|].
  unfold extract. destruct (RegExp_new (regex def)); simpl; by eexists.
Qed.

Lemma deriveOne_other (bag : gmap string string) (def : CustomPlaceholder)
    (key : string) :
  (complete def → cp_name def ≠ key) →
  deriveOne bag def !! key = bag !! key.
Proof.
  intros Hkey. destruct (complete_dec def) as [Hc|Hnc].
  - destruct (deriveOne_writes bag def Hc) as [v ->].
    by rewrite lookup_insert_ne by auto.
  - by rewrite deriveOne_skipped.
Qed.







End Deriver.






(** * Further properties of the code *)

(** ** Sanitizer *)

Lemma sanitize_app (s t : string) :
  sanitizeFilename (s +:+ t) = sanitizeFilename s +:+ sanitizeFilename t.
Proof.
  unfold sanitizeFilename. induction s as [|c s IH]; [done|].
  rewrite app_cons. simpl. by rewrite IH, app_cons.
Qed.

Lemma mem_char_sanitize (c : ascii) (s : string) :
  invalid_char c = true → Notions.mem_char c (sanitizeFilename s) = false.
Proof.
  intros Hc. unfold sanitizeFilename. induction s as [|a s IH]; [done|].
  simpl. rewrite IH, orb_false_r. apply bool_decide_eq_false.
  intros Heq. pose proof (replaced_valid a) as Hv. congruence.
Qed.

Lemma clean_spec (s : string) :
  Shapes.clean s = true
  ↔ ∀ c, invalid_char c = true → Notions.mem_char c s = false.
Proof.
  unfold Shapes.clean. rewrite forallb_forall. split.
  - intros Hall c Hc. apply invalid_char_forbidden in Hc.
    apply negb_true_iff, Hall. by apply list_elem_of_In.
  - intros Hall c Hc. apply negb_true_iff, Hall.
    apply invalid_char_forbidden. by apply list_elem_of_In.
Qed.

Lemma clean_fixed (s : string) :
  (∀ c, invalid_char c = true → Notions.mem_char c s = false) ↔
  sanitizeFilename s = s.
Proof.
  unfold sanitizeFilename. induction s as [|a s IH]; simpl; [done|]. split.
  - intros Hall. f_equal.
    + unfold replaced. destruct (invalid_char a) eqn:E; [|done].
      specialize (Hall a E). by rewrite bool_decide_eq_true_2 in Hall.
    + apply IH. intros c Hc. specialize (Hall c Hc).
      by apply orb_false_iff in Hall as [_ ?].
  - intros [= Ha Hs] c Hc. apply orb_false_iff. split.
    + apply bool_decide_eq_false. intros ->.
      unfold replaced in Ha. rewrite Hc in Ha. by subst c.
    + by apply IH.
Qed.

(** X1. The sanitized name contains none of the nine characters, and
    the sanitizer changes a string if and only if it contains one. *)
Theorem sanitize_output_clean (s : string) :
  Shapes.clean (sanitizeFilename s) = true
  ∧ (sanitizeFilename s = s ↔ Shapes.clean s = true).
Proof.
  split.
  - apply clean_spec. intros c Hc. by apply mem_char_sanitize.
  - rewrite clean_spec. symmetry. apply clean_fixed.
Qed.

(** ** Filename splitter *)

Lemma lastIndexOf_app_char (a b : string) (c : ascii) :
  Notions.mem_char c b = false →
  JS.lastIndexOf (a +:+ String c b) c = Z.of_nat (JS.length a).
Proof.
  intros Hb.
  assert (JS.lastIndexOf b c = -1) as Hlast.
  { induction b as [|d b IH]; [done|]. simpl in *.
    apply orb_false_iff in Hb as [Hd Hb]. by rewrite (IH Hb), Hd. }
  induction a as [|d a IH].
  - rewrite app_nil_l. simpl. rewrite Hlast. simpl.
    by rewrite bool_decide_eq_true_2.
  - rewrite app_cons. cbn [JS.lastIndexOf JS.length]. rewrite IH.
    destruct (0 <=? Z.of_nat (JS.length a)) eqn:E; [lia|].
    apply Z.leb_gt in E. lia.
Qed.

Lemma drop_app_length (s t : string) : JS.drop (JS.length s) (s +:+ t) = t.
Proof.
  induction s as [|c s IH]; [by destruct t|]. rewrite app_cons. by simpl.
Qed.

Lemma splitFilename_app (stem e : string) :
  stem ≠ "" → Notions.mem_char "." e = false →
  splitFilename (stem +:+ "." +:+ e)
  = {| name := stem; ext := "." +:+ e |}.
Proof.
  intros Hstem He. unfold splitFilename.
  change ("." +:+ e) with (String "."%char e).
  rewrite (lastIndexOf_app_char stem e "." He).
  assert (0 < JS.length stem)%nat as Hlen by (destruct stem; [done|simpl; lia]).
  destruct (Z.of_nat (JS.length stem) <=? 0) eqn:E; [lia|]. f_equal.
  - unfold JS.substring. rewrite length_app. cbn [JS.length].
    set (n := JS.length stem) in *. set (m := JS.length e).
    replace (Z.min (Z.max 0 0) (Z.of_nat (n + S m))) with 0 by lia.
    replace (Z.min (Z.max (Z.of_nat n) 0) (Z.of_nat (n + S m)))
      with (Z.of_nat n) by lia.
    replace (Z.min 0 (Z.of_nat n)) with 0 by lia.
    replace (Z.to_nat (Z.max 0 (Z.of_nat n) - 0)) with n by lia.
    apply take_app_length.
  - unfold JS.substring_from, JS.substring. rewrite length_app.
    cbn [JS.length].
    set (n := JS.length stem) in *. set (m := JS.length e).
    replace (Z.min (Z.max (Z.of_nat n) 0) (Z.of_nat (n + S m)))
      with (Z.of_nat n) by lia.
    replace (Z.min (Z.max (Z.of_nat (n + S m)) 0) (Z.of_nat (n + S m)))
      with (Z.of_nat (n + S m)) by lia.
    replace (Z.min (Z.of_nat n) (Z.of_nat (n + S m))) with (Z.of_nat n) by lia.
    replace (Z.to_nat (Z.max (Z.of_nat n) (Z.of_nat (n + S m)) - Z.of_nat n))
      with (S m) by lia.
    rewrite Nat2Z.id. subst n. rewrite drop_app_length.
    apply take_all. simpl. lia.
Qed.

(** X2. Splitting undoes joining: for a non-empty stem and an extension
    body without dot, the filename stem.body splits into the stem and the
    dotted extension; the split happens at the last dot only. *)
Theorem splitFilename_joined (stem body : string) :
  stem ≠ "" → Notions.mem_char "." body = false →
  splitFilename (stem +:+ "." +:+ body)
  = {| name := stem; ext := "." +:+ body |}.
Proof. apply splitFilename_app. Qed.

Lemma splitFilename_joined_witness :
  "archive.tar" ≠ "" ∧ Notions.mem_char "." "gz" = false
  ∧ splitFilename "archive.tar.gz" = {| name := "archive.tar"; ext := ".gz" |}.
Proof.
  split; [done|]. split; [reflexivity|].
  exact (splitFilename_joined "archive.tar" "gz" ltac:(done) eq_refl).
Defined.

(** ** Category classifier *)

Lemma substring_from_one (c : ascii) (s : string) :
  JS.substring_from (String c s) 1 = s.
Proof.
  unfold JS.substring_from, JS.substring. cbn [JS.length].
  set (m := JS.length s).
  replace (Z.min (Z.max 1 0) (Z.of_nat (S m))) with 1 by lia.
  replace (Z.min (Z.max (Z.of_nat (S m)) 0) (Z.of_nat (S m)))
    with (Z.of_nat (S m)) by lia.
  replace (Z.to_nat (Z.min 1 (Z.of_nat (S m)))) with 1%nat by lia.
  replace (Z.to_nat (Z.max 1 (Z.of_nat (S m)) - Z.min 1 (Z.of_nat (S m))))
    with m by lia.
  simpl. by apply take_all.
Qed.

Lemma fileExtension_joined (stem body : string) :
  stem ≠ "" → Notions.mem_char "." body = false →
  fileExtension (stem +:+ "." +:+ body) = JS.toLowerCase body.
Proof.
  intros Hstem Hbody. unfold fileExtension.
  rewrite (splitFilename_app stem body Hstem Hbody). simpl.
  change ("." +:+ body) with (String "."%char body).
  replace (JS.startsWith (String "."%char body) ".") with true
    by (symmetry; reflexivity).
  by rewrite substring_from_one.
Qed.

Lemma truthy_app (s t : string) :
  s ≠ "" → JS.truthy (s +:+ t) = true.
Proof. destruct s; [done|]. by rewrite app_cons. Qed.

(** X3. The category depends on the extension only, and on it only up
    to letter case: two filenames with non-empty stems whose extensions
    have the same lower-case form fall into the same category, whatever
    the rules. *)
Theorem category_by_extension (stem1 stem2 body1 body2 : string)
    (customRules : option (list CategoryRule)) :
  stem1 ≠ "" → stem2 ≠ "" →
  Notions.mem_char "." body1 = false → Notions.mem_char "." body2 = false →
  JS.toLowerCase body1 = JS.toLowerCase body2 →
  getCategoryForFile (stem1 +:+ "." +:+ body1) customRules
  = getCategoryForFile (stem2 +:+ "." +:+ body2) customRules.
Proof.
  intros H1 H2 Hb1 Hb2 Heq. unfold getCategoryForFile.
  rewrite !truthy_app by done.
  by rewrite !fileExtension_joined, Heq by done.
Qed.

Lemma category_by_extension_witness :
  getCategoryForFile "report.PDF" (Some DEFAULT_CATEGORY_RULES)
  = getCategoryForFile "holiday.snaps.pdf" (Some DEFAULT_CATEGORY_RULES).
Proof.
  exact (category_by_extension "report" "holiday.snaps" "PDF" "pdf"
           (Some DEFAULT_CATEGORY_RULES)
           ltac:(done) ltac:(done) eq_refl eq_refl eq_refl).
Defined.

Lemma findCategory_sound (rules : list CategoryRule) (extension fb : string) :
  findCategory rules extension fb = fb
  ∨ ∃ rule, rule ∈ rules
            ∧ findCategory rules extension fb = rule_name rule
            ∧ rule_name rule ≠ ""
            ∧ extension ∈ rule_extension_list rule.
Proof.
  induction rules as [|r rules IH]; simpl; [by left|].
  destruct (JS.truthy (rule_name r)) eqn:Hn; simpl.
  2:{ destruct IH as [IH|(rule & Hin & IH)]; [by left|right].
      exists rule. split; [by apply list_elem_of_further|done]. }
  destruct (JS.truthy (extensions r)); simpl.
  2:{ destruct IH as [IH|(rule & Hin & IH)]; [by left|right].
      exists rule. split; [by apply list_elem_of_further|done]. }
  unfold JS.array_includes. case_bool_decide as Hin.
  - right. exists r. split; [apply list_elem_of_here|].
    split; [done|]. split; [by apply truthy_nonempty|done].
  - destruct IH as [IH|(rule & Hin' & IH)]; [by left|right].
    exists rule. split; [by apply list_elem_of_further|done].
Qed.

(** X4. The classifier never invents a category: its answer is
    ["unknown"], or the name of a rule of the list in force that has a
    name and really lists the file's (non-empty, lower-cased)
    extension. *)
Theorem category_sound (filename : string)
    (customRules : option (list CategoryRule)) :
  getCategoryForFile filename customRules = "unknown"
  ∨ ∃ rule, rule ∈ effectiveRules customRules
            ∧ getCategoryForFile filename customRules = rule_name rule
            ∧ rule_name rule ≠ ""
            ∧ fileExtension filename ≠ ""
            ∧ fileExtension filename ∈ rule_extension_list rule.
Proof.
  unfold getCategoryForFile.
  destruct (JS.truthy filename); simpl; [|by left].
  destruct (JS.truthy (fileExtension filename)) eqn:He; simpl; [|by left].
  destruct (findCategory_sound (effectiveRules customRules)
              (fileExtension filename) "unknown")
    as [Hfb|(rule & Hin & Hres & Hname & Hlist)]; [by left|right].
  exists rule. repeat split; try done. by apply truthy_nonempty.
Qed.

(** ** Date and time *)

Lemma pretty_char_digit (x : N) : Shapes.is_digit (pretty_N_char x) = true.
Proof. unfold pretty_N_char. by repeat case_match. Qed.

Lemma pretty_one_digit (x : N) :
  (x < 10)%N → pretty x = String (pretty_N_char x) "".
Proof.
  intros Hx. unfold pretty, pretty_N. case_decide as H0; [by subst|].
  rewrite pretty_N_go_step by lia.
  rewrite N.div_small, N.mod_small by lia. apply pretty_N_go_0.
Qed.

Lemma pretty_two_digits (x : N) :
  (10 ≤ x < 100)%N →
  pretty x = String (pretty_N_char (x `div` 10))
               (String (pretty_N_char (x `mod` 10)) "").
Proof.
  intros Hx. unfold pretty, pretty_N. case_decide as H0; [lia|].
  rewrite pretty_N_go_step by lia.
  assert (0 < x `div` 10 < 10)%N as Hq.
  { split; [apply N.div_str_pos; lia|apply N.Div0.div_lt_upper_bound; lia]. }
  rewrite pretty_N_go_step by lia.
  rewrite (N.div_small (x `div` 10)), (N.mod_small (x `div` 10)) by lia.
  apply pretty_N_go_0.
Qed.

Lemma pretty_four_digits (x : N) :
  (1000 ≤ x < 10000)%N →
  ∃ a b c d, pretty x = String a (String b (String c (String d "")))
             ∧ Shapes.is_digit a = true ∧ Shapes.is_digit b = true
             ∧ Shapes.is_digit c = true ∧ Shapes.is_digit d = true.
Proof.
  intros Hx. unfold pretty, pretty_N. case_decide as H0; [lia|].
  assert (100 ≤ x `div` 10 < 1000)%N as H1.
  { split; [apply N.div_le_lower_bound; lia
           |apply N.Div0.div_lt_upper_bound; lia]. }
  assert (10 ≤ (x `div` 10) `div` 10 < 100)%N as H2.
  { split; [apply N.div_le_lower_bound; lia
           |apply N.Div0.div_lt_upper_bound; lia]. }
  assert (1 ≤ ((x `div` 10) `div` 10) `div` 10 < 10)%N as H3.
  { split; [apply N.div_le_lower_bound; lia
           |apply N.Div0.div_lt_upper_bound; lia]. }
  rewrite pretty_N_go_step by lia.
  rewrite pretty_N_go_step by lia.
  rewrite pretty_N_go_step by lia.
  rewrite pretty_N_go_step by lia.
  rewrite (N.div_small (((x `div` 10) `div` 10) `div` 10)) by lia.
  rewrite pretty_N_go_0.
  eexists _, _, _, _. split; [reflexivity|].
  repeat split; apply pretty_char_digit.
Qed.

Lemma pad2_shape (n : nat) :
  (n < 100)%nat →
  ∃ a b, pad2 n = String a (String b "")
         ∧ Shapes.is_digit a = true ∧ Shapes.is_digit b = true.
Proof.
  intros Hn. unfold pad2, pretty, pretty_nat.
  destruct (decide (n < 10)%nat) as [Hlt|Hge].
  - rewrite pretty_one_digit by lia. exists "0"%char, (pretty_N_char (N.of_nat n)).
    split; [reflexivity|]. split; [reflexivity|apply pretty_char_digit].
  - rewrite pretty_two_digits by lia. eexists _, _.
    split; [reflexivity|]. split; apply pretty_char_digit.
Qed.

Lemma all_digits_app (s t : string) :
  Shapes.all_digits (s +:+ t) = Shapes.all_digits s && Shapes.all_digits t.
Proof.
  induction s as [|c s IH]; [done|].
  rewrite app_cons. simpl. by rewrite IH, andb_assoc.
Qed.

Lemma digit_valid (c : ascii) :
  Shapes.is_digit c = true → invalid_char c = false.
Proof.
  destruct c as [[] [] [] [] [] [] [] []]; by vm_compute.
Qed.

Lemma sanitize_digits (s : string) :
  Shapes.all_digits s = true → sanitizeFilename s = s.
Proof.
  unfold sanitizeFilename. induction s as [|c s IH]; [done|]. simpl.
  intros [Hc Hs]%andb_true_iff. rewrite (IH Hs). f_equal.
  unfold replaced. by rewrite (digit_valid c Hc).
Qed.

(** X5. For readings of an actual clock in a four-digit year, the date
    is eight digits, the time six digits, the timestamp is the date, a
    dash and the time (fifteen characters), and the sanitizer leaves the
    timestamp as it is. *)
Theorem timestamp_shape (now1 now2 : JSDate) :
  Shapes.plausible now1 → Shapes.plausible now2 →
  JS.length (getFormattedDate now1) = 8%nat
  ∧ Shapes.all_digits (getFormattedDate now1) = true
  ∧ JS.length (getFormattedTime now2) = 6%nat
  ∧ Shapes.all_digits (getFormattedTime now2) = true
  ∧ JS.length (getFormattedTimestamp now1 now2) = 15%nat
  ∧ sanitizeFilename (getFormattedTimestamp now1 now2)
    = getFormattedTimestamp now1 now2.
Proof.
  intros (Hy1 & Hm1 & Hd1 & _) (_ & _ & _ & Hh2 & Hmi2 & Hs2).
  destruct (pretty_four_digits (N.of_nat (getFullYear now1)))
    as (y1 & y2 & y3 & y4 & Hy & ? & ? & ? & ?); [lia|].
  destruct (pad2_shape (getMonth now1 + 1)) as (m1 & m2 & Hm & ? & ?); [lia|].
  destruct (pad2_shape (getDate now1)) as (d1 & d2 & Hd & ? & ?); [lia|].
  destruct (pad2_shape (getHours now2)) as (h1 & h2 & Hh & ? & ?); [lia|].
  destruct (pad2_shape (getMinutes now2)) as (i1 & i2 & Hi & ? & ?); [lia|].
  destruct (pad2_shape (getSeconds now2)) as (s1 & s2 & Hs & ? & ?); [lia|].
  assert (getFormattedDate now1
          = String y1 (String y2 (String y3 (String y4
              (String m1 (String m2 (String d1 (String d2 ""))))))))
    as Hdate.
  { unfold getFormattedDate. fold (@pretty nat _ (getFullYear now1)).
    unfold pretty at 1, pretty_nat. by rewrite Hy, Hm, Hd. }
  assert (getFormattedTime now2
          = String h1 (String h2 (String i1 (String i2
              (String s1 (String s2 "")))))) as Htime.
  { unfold getFormattedTime. by rewrite Hh, Hi, Hs. }
  assert (Shapes.all_digits (getFormattedDate now1) = true) as Hdd.
  { rewrite Hdate. cbn [Shapes.all_digits].
    rewrite !andb_true_iff. by repeat split. }
  assert (Shapes.all_digits (getFormattedTime now2) = true) as Htd.
  { rewrite Htime. cbn [Shapes.all_digits].
    rewrite !andb_true_iff. by repeat split. }
  split; [by rewrite Hdate|]. split; [exact Hdd|].
  split; [by rewrite Htime|]. split; [exact Htd|].
  unfold getFormattedTimestamp. split.
  - rewrite !length_app, Hdate, Htime. reflexivity.
  - rewrite !sanitize_app, (sanitize_digits _ Hdd), (sanitize_digits _ Htd).
    reflexivity.
Qed.

Lemma timestamp_shape_witness :
  Shapes.plausible (now_date Notions.example_clock)
  ∧ getFormattedTimestamp (now_date Notions.example_clock)
      (now_time Notions.example_clock) = "20240115-090507"
  ∧ JS.length (getFormattedTimestamp (now_date Notions.example_clock)
                 (now_time Notions.example_clock)) = 15%nat.
Proof.
  assert (Shapes.plausible (now_date Notions.example_clock)) as Hp.
  { unfold Shapes.plausible. simpl. lia. }
  split; [exact Hp|]. split; [reflexivity|].
  exact (proj1 (proj2 (proj2 (proj2 (proj2
    (timestamp_shape _ _ Hp Hp)))))).
Defined.

(** ** Filename assembler *)

Lemma join_empty_separator (arr : list string) :
  JS.join arr "" = foldr (fun x acc => x +:+ acc) "" arr.
Proof.
  induction arr as [|x [|y arr] IH]; [done| |].
  - simpl. by rewrite app_nil_r.
  - change (JS.join (x :: y :: arr) "")
      with (x +:+ "" +:+ JS.join (y :: arr) "").
    by rewrite IH, app_nil_l.
Qed.

Lemma concat_without_empty (arr : list string) :
  foldr (fun x acc => x +:+ acc) "" (filter (fun v => v ≠ "") arr)
  = foldr (fun x acc => x +:+ acc) "" arr.
Proof.
  induction arr as [|x arr IH]; [done|].
  destruct (decide (x = "")) as [->|Hx].
  - rewrite filter_cons_False by (intros ?; done). simpl.
    by rewrite IH, app_nil_l.
  - rewrite filter_cons_True by done. simpl. by rewrite IH.
Qed.


(** X6. Empty values never reach the name, whatever the separator: for
    every separator, the empty one included, the joined string is the
    join of the non-empty values, so the two branches of the join agree. *)
Theorem joined_is_join_of_non_empty (pattern : string)
    (values : gmap string string) (separator : string) :
  joinedString pattern values separator
  = JS.join (nonEmptyValues pattern values) separator.
Proof.
  unfold joinedString. case_bool_decide as Hsep; [|done]. subst separator.
  unfold nonEmptyValues.
  by rewrite !join_empty_separator, concat_without_empty.
Qed.

Lemma placeholders_of_parts (parts : list (string * string))
    (closing : string) :
  Forall (fun part => JS.includes part.1 "{" = false
                      ∧ part.2 ≠ ""
                      ∧ JS.includes part.2 "}" = false) parts →
  JS.includes closing "{" = false →
  placeholdersInPattern (Notions.pattern_of parts closing)
  = filter (fun p => p ≠ "ext") (parts.*2).
Proof.
  intros Hparts Hclosing. unfold placeholdersInPattern.
  rewrite match_placeholders_default, match_all_pattern_of by done.
  f_equal. rewrite <- list_fmap_compose. apply list_fmap_ext.
  intros i [literal placeholder] _. simpl. apply slice_braces.
Qed.

(** X7. Only the placeholder names of a pattern count: literal text
    between the placeholders and any [{ext}] token have no effect on the
    assembled name.  Two well-formed patterns with the same names other
    than [ext], in the same order, give the same result. *)
Theorem literal_text_ignored (parts1 parts2 : list (string * string))
    (closing1 closing2 : string) (values : gmap string string)
    (separator : string) :
  Forall (fun part => JS.includes part.1 "{" = false
                      ∧ part.2 ≠ ""
                      ∧ JS.includes part.2 "}" = false) parts1 →
  JS.includes closing1 "{" = false →
  Forall (fun part => JS.includes part.1 "{" = false
                      ∧ part.2 ≠ ""
                      ∧ JS.includes part.2 "}" = false) parts2 →
  JS.includes closing2 "{" = false →
  filter (fun p => p ≠ "ext") (parts1.*2)
  = filter (fun p => p ≠ "ext") (parts2.*2) →
  processPattern (Notions.pattern_of parts1 closing1) values separator
  = processPattern (Notions.pattern_of parts2 closing2) values separator.
Proof.
  intros H1 Hc1 H2 Hc2 Hnames.
  unfold processPattern, joinedString, nonEmptyValues, processedValues.
  by rewrite !placeholders_of_parts, Hnames by done.
Qed.

Lemma literal_text_ignored_witness :
  processPattern "{date}_{originalFilename}{ext}.bak"
    Notions.example_values "-"
  = processPattern "{date}{originalFilename}" Notions.example_values "-"
  ∧ processPattern "{date}_{originalFilename}{ext}.bak"
      Notions.example_values "-" = "20240115-report.pdf".
Proof.
  split; [|reflexivity].
  apply (literal_text_ignored
           [("", "date"); ("_", "originalFilename"); ("", "ext")]
           [("", "date"); ("", "originalFilename")] ".bak" "");
    try reflexivity; repeat constructor; done.
Defined.

(** X8. A pattern without an opening brace, or without a closing one,
    holds no placeholder: the assembled name is the extension alone. *)
Theorem pattern_without_placeholder (pattern : string)
    (values : gmap string string) (separator : string) :
  JS.includes pattern "{" = false ∨ JS.includes pattern "}" = false →
  processPattern pattern values separator = JS.or_empty (values !! "ext").
Proof.
  intros Hcase.
  assert (match_all_from 0 pattern = []) as Hnone.
  { destruct Hcase as [Hopen|Hclose]; [|by apply match_all_unclosed].
    rewrite <- (app_nil_r pattern). by rewrite match_all_literal. }
  unfold processPattern, joinedString, nonEmptyValues, processedValues,
    placeholdersInPattern.
  rewrite match_placeholders_default, Hnone. simpl.
  by case_bool_decide.
Qed.

Lemma pattern_without_placeholder_witness :
  (JS.includes "invoice-{date" "{" = false
   ∨ JS.includes "invoice-{date" "}" = false)
  ∧ processPattern "invoice-{date" Notions.example_values "_" = ".pdf".
Proof.
  assert (JS.includes "invoice-{date" "{" = false
          ∨ JS.includes "invoice-{date" "}" = false) as Hcase
    by (right; reflexivity).
  split; [exact Hcase|].
  exact (pattern_without_placeholder "invoice-{date" Notions.example_values
           "_" Hcase).
Defined.

(** ** The download handler *)

Section Handler.
Context `{Host}.







End Handler.











(** X14. The keyword gate: it lets a source value pass exactly when the
    keywords field holds nothing but commas and white space, or one of
    its comma-separated keywords, trimmed, occurs in the source value
    without regard to letter case. *)
Theorem keyword_gate (keywordsRaw source : string) :
  gatePass keywordsRaw source = true
  ↔ (∀ k, k ∈ JS.split keywordsRaw "," → JS.trim k = "")
    ∨ (∃ k, k ∈ JS.split keywordsRaw ","
            ∧ JS.trim k ≠ ""
            ∧ JS.includes (JS.toLowerCase source)
                (JS.toLowerCase (JS.trim k)) = true).
Proof.
  unfold gatePass.
  set (kept := filter (fun k => (0 < JS.length k)%nat)
                 (JS.trim <$> JS.split keywordsRaw ",")).
  assert (∀ t, t ∈ kept ↔ t ≠ "" ∧ ∃ k, k ∈ JS.split keywordsRaw ","
                                        ∧ t = JS.trim k) as Hkept.
  { intros t. unfold kept. rewrite list_elem_of_filter, list_elem_of_fmap.
    assert ((0 < JS.length t)%nat ↔ t ≠ "") as ->
      by (destruct t; simpl; split; (done || lia)).
    split; intros [? (k & ? & ?)]; eauto. }
  case_bool_decide as Hlen.
  - apply length_zero_iff_nil in Hlen. split; [intros _|done]. left.
    intros k Hk. destruct (decide (JS.trim k = "")) as [|Hne]; [done|].
    assert (JS.trim k ∈ kept) as Hin by (apply Hkept; eauto).
    rewrite Hlen in Hin. by apply elem_of_nil in Hin.
  - rewrite existsb_exists. split.
    + intros (t & Hin%list_elem_of_In & Hinc). right.
      apply Hkept in Hin as (Hne & k & Hk & ->). eauto.
    + intros [Hall|(k & Hk & Hne & Hinc)].
      * exfalso. destruct kept as [|t kept']; [by apply Hlen|].
        destruct (proj1 (Hkept t) (list_elem_of_here _ _))
          as (Hne & k & Hk & ->).
        exact (Hne (Hall k Hk)).
      * exists (JS.trim k). split; [|done].
        apply list_elem_of_In, Hkept. eauto.
Qed.

(** ** Settings life cycle *)

(** X15. The install handler fills in what is missing and nothing else:
    afterwards the three settings are stored, a stored enabled flag or
    separator is kept as it was (an empty separator included), a stored
    pattern is kept unless it is empty, the other keys are untouched, and
    running the handler again changes nothing. *)
Theorem install_defaults_once (stored : Storage.t) :
  Storage.enabled (Lifecycle.onInstalled stored)
  = Some (default true (Storage.enabled stored))
  ∧ Storage.separator (Lifecycle.onInstalled stored)
    = Some (default DEFAULT_SEPARATOR (Storage.separator stored))
  ∧ Storage.pattern (Lifecycle.onInstalled stored)
    = Some (if JS.truthy (JS.or_empty (Storage.pattern stored))
            then JS.or_empty (Storage.pattern stored)
            else DEFAULT_PATTERN)
  ∧ Storage.categoryRules (Lifecycle.onInstalled stored)
    = Storage.categoryRules stored
  ∧ Storage.customPlaceholders (Lifecycle.onInstalled stored)
    = Storage.customPlaceholders stored
  ∧ Lifecycle.onInstalled (Lifecycle.onInstalled stored)
    = Lifecycle.onInstalled stored.
Proof.
  destruct stored as [[b|] [[|c p]|] [sep|] rules defs];
    repeat split; reflexivity.
Qed.

(** X16. Initialisation and the install handler agree on the defaults:
    the state the worker builds from the storage is the same whether or
    not the install handler has run before.  In that state the pattern is
    never empty, and files are classified exactly as with the stored
    rules, the first-run copy of the default rules behaving like no
    custom rules at all. *)
Theorem initialize_agrees (stored : Storage.t) :
  Lifecycle.initialize (Lifecycle.onInstalled stored)
  = Lifecycle.initialize stored
  ∧ userPattern (Lifecycle.initialize stored).1 ≠ ""
  ∧ ∀ filename,
      getCategoryForFile filename
        (Some (categoryRules (Lifecycle.initialize stored).1))
      = getCategoryForFile filename (Storage.categoryRules stored).
Proof.
  split; [|split].
  - destruct stored as [[b|] [[|c p]|] [sep|] rules defs]; reflexivity.
  - destruct stored as [b [[|c p]|] sep [rules|] defs]; done.
  - intros filename. by destruct stored as [b p sep [rules|] defs].
Qed.

(** ** Options page *)

Lemma finalPattern_parts (blocks : list string) (closing : string) :
  JS.join ((fun b => "{" +:+ b +:+ "}") <$> blocks) "" +:+ closing
  = Notions.pattern_of ((fun b => ("", b)) <$> blocks) closing.
Proof.
  rewrite join_empty_separator.
  induction blocks as [|b blocks IH]; [done|].
  rewrite !fmap_cons. cbn [foldr Notions.pattern_of].
  by rewrite !app_assoc, app_nil_l, IH.
Qed.

(** X17. What the options page saves is what it, and the worker, read
    back: for blocks whose names are non-empty, hold no closing brace and
    are not [ext], the pattern built by saving parses to exactly these
    names in order, and loading the saved pattern rebuilds the same
    blocks when they are known placeholders. *)
Theorem saved_pattern_round_trip (PLACEHOLDERS blocks : list string) :
  Forall (fun b => b ≠ "" ∧ JS.includes b "}" = false ∧ b ≠ "ext"
                   ∧ b ∈ PLACEHOLDERS) blocks →
  placeholdersInPattern (Options.finalPattern blocks) = blocks
  ∧ Options.loadedBlocks PLACEHOLDERS (Some (Options.finalPattern blocks))
    = blocks.
Proof.
  intros Hblocks.
  assert (Options.finalPattern blocks
          = Notions.pattern_of
              ((fun b => ("", b)) <$> (blocks ++ ["ext"])) "") as Hpat.
  { unfold Options.finalPattern. rewrite fmap_app.
    rewrite (finalPattern_parts blocks "{ext}").
    generalize ((fun b : string => ("", b)) <$> blocks).
    intros l. induction l as [|[x y] l IH]; [done|].
    cbn [app Notions.pattern_of]. by rewrite IH. }
  assert (placeholdersInPattern (Options.finalPattern blocks) = blocks)
    as Hparse.
  { rewrite Hpat, placeholders_of_parts; [| |done].
    - rewrite <- list_fmap_compose, fmap_app. simpl.
      rewrite list_fmap_id, filter_app.
      rewrite (filter_cons_False _ "ext") by (intros ?; done).
      rewrite filter_nil, (right_id_L [] (++)). clear Hpat.
      induction Hblocks as [|b blocks (_ & _ & Hne & _) _ IH]; [done|].
      by rewrite filter_cons_True, IH by done.
    - apply Forall_fmap, Forall_app. split.
      + eapply Forall_impl; [exact Hblocks|]. by intros b (? & ? & _).
      + by repeat constructor. }
  split; [exact Hparse|]. unfold Options.loadedBlocks.
  assert (JS.truthy (JS.or_empty (Some (Options.finalPattern blocks))) = true)
    as ->.
  { simpl. unfold Options.finalPattern. apply truthy_nonempty.
    intros Heq. apply (f_equal JS.length) in Heq.
    rewrite length_app in Heq. simpl in Heq. lia. }
  simpl. rewrite Hparse. clear Hpat Hparse.
  induction Hblocks as [|b blocks (_ & _ & _ & Hin) _ IH]; [done|].
  by rewrite filter_cons_True, IH by done.
Qed.

Lemma saved_pattern_round_trip_witness :
  placeholdersInPattern (Options.finalPattern ["category"; "date"; "date"])
  = ["category"; "date"; "date"]
  ∧ Options.finalPattern ["category"; "date"; "date"]
    = "{category}{date}{date}{ext}".
Proof.
  split; [|reflexivity].
  apply (saved_pattern_round_trip ["date"; "category"]
           ["category"; "date"; "date"]).
  repeat apply Forall_cons_2; try apply Forall_nil_2;
    (split; [done|split; [reflexivity|split; [done|]]]);
    apply (bool_decide_unpack _); by vm_compute.
Defined.

Lemma saved_rules_named (rows : list (string * string)) :
  Forall (fun r => rule_name r ≠ "") (Options.saveCategoryRules rows).
Proof.
  induction rows as [|[n e] rows IH]; simpl; [constructor|].
  destruct (JS.truthy (JS.trim n)) eqn:Hn; simpl; [|done].
  destruct (JS.truthy (JS.trim e)); [|done].
  constructor; [|done]. simpl. by apply truthy_nonempty.
Qed.

Lemma filter_named (rules : list CategoryRule) :
  Forall (fun r => rule_name r ≠ "") rules →
  filter (fun r => rule_name r ≠ "") rules = rules.
Proof.
  induction 1 as [|r rules Hr _ IH]; [done|].
  by rewrite filter_cons_True, IH by done.
Qed.

(** X18. For rules saved by the options page the classifier is the
    plain first-match search: saving keeps only rows with a name and an
    extensions field, so the guard of the loop never skips a saved rule,
    and for a file with an extension the answer is the name of the first
    rule in force whose list contains the extension. *)
Theorem saved_rules_first_match (rows : list (string * string))
    (filename : string) :
  fileExtension filename ≠ "" →
  getCategoryForFile filename (Some (Options.saveCategoryRules rows))
  = Notions.spec_first_match
      (effectiveRules (Some (Options.saveCategoryRules rows)))
      (fileExtension filename).
Proof.
  intros Hext. unfold getCategoryForFile.
  destruct filename as [|c filename]; [done|]. simpl.
  apply truthy_nonempty in Hext as Ht. rewrite Ht. simpl.
  rewrite findCategory_refines by done. f_equal. apply filter_named.
  pose proof (saved_rules_named rows) as Hsaved.
  destruct (Options.saveCategoryRules rows) as [|r rules]; [|done].
  simpl. repeat constructor; done.
Qed.

Lemma saved_rules_first_match_witness :
  fileExtension "notes.TXT" ≠ ""
  ∧ Options.saveCategoryRules
      [(" Text ", "txt, md"); ("", "txt"); ("Docs", " txt ")]
    = [ {| rule_name := "Text"; extensions := "txt, md" |};
        {| rule_name := "Docs"; extensions := "txt" |} ]
  ∧ getCategoryForFile "notes.TXT"
      (Some (Options.saveCategoryRules
               [(" Text ", "txt, md"); ("", "txt"); ("Docs", " txt ")]))
    = "Text".
Proof.
  split; [done|]. split; [reflexivity|].
  rewrite (saved_rules_first_match
             [(" Text ", "txt, md"); ("", "txt"); ("Docs", " txt ")]
             "notes.TXT") by done.
  reflexivity.
Defined.


(** ** Custom placeholder deriver, continued *)

Section Order.
Context `{Host}.

Lemma deriveOne_by_source (bag1 bag2 : gmap string string)
    (def : CustomPlaceholder) :
  Notions.complete def →
  sourceValue bag1 def = sourceValue bag2 def →
  ∃ v, deriveOne bag1 def = <[cp_name def := v]> bag1
       ∧ deriveOne bag2 def = <[cp_name def := v]> bag2.
Proof.
  intros Hc Hs. unfold deriveOne. rewrite (complete_guard def Hc), <- Hs.
  destruct (negb (JS.truthy (sourceValue bag1 def))); [by eexists|].
  destruct (negb (gatePass _ _)); [by eexists|].
  unfold extract. destruct (RegExp_new (regex def)); simpl; by eexists.
Qed.

Lemma sourceValue_other (bag : gmap string string)
    (def other : CustomPlaceholder) :
  (Notions.complete other → cp_name other ≠ base def) →
  sourceValue (deriveOne bag other) def = sourceValue bag def.
Proof.
  intros Hne. unfold sourceValue. by rewrite deriveOne_other.
Qed.

End Order.

(** X20. Definitions that do not touch each other may be listed in
    either order: if two definitions have different names and neither
    reads the name the other writes, running them in one order or the
    other leaves the same bag. *)
Theorem independent_definitions_commute `{Host} (bag : gmap string string)
    (def1 def2 : CustomPlaceholder) :
  cp_name def1 ≠ cp_name def2 →
  base def1 ≠ cp_name def2 →
  base def2 ≠ cp_name def1 →
  deriveCustom [def1; def2] bag = deriveCustom [def2; def1] bag.
Proof.
  intros Hnames H12 H21. rewrite !deriveCustom_cons.
  change (deriveCustom [] ?b) with b.
  destruct (complete_dec def1) as [Hc1|Hn1];
    [|by rewrite !(deriveOne_skipped _ def1)].
  destruct (complete_dec def2) as [Hc2|Hn2];
    [|by rewrite !(deriveOne_skipped _ def2)].
  destruct (deriveOne_by_source (deriveOne bag def1) bag def2 Hc2)
    as (v2 & -> & E2); [by apply sourceValue_other|].
  destruct (deriveOne_by_source (deriveOne bag def2) bag def1 Hc1)
    as (v1 & -> & E1); [by apply sourceValue_other|].
  rewrite E1, E2. by apply insert_insert_ne.
Qed.

Lemma independent_definitions_commute_witness :
  @deriveCustom ExampleHost.example_host [Notions.site; Notions.broken]
    Notions.example_bag
  = @deriveCustom ExampleHost.example_host [Notions.broken; Notions.site]
      Notions.example_bag.
Proof.
  by apply (@independent_definitions_commute ExampleHost.example_host
              Notions.example_bag Notions.site Notions.broken).
Defined.

(** X21. The two parts of a split: the name part is empty only for the
    empty filename, and the extension part is empty or a dot followed by
    characters none of which is a dot. *)
Theorem split_parts_shape (filename : string) :
  (name (splitFilename filename) = "" ↔ filename = "")
  ∧ (ext (splitFilename filename) = ""
     ∨ ∃ body, ext (splitFilename filename) = String "."%char body
               ∧ Notions.mem_char "." body = false).
Proof.
  unfold splitFilename.
  pose proof (lastIndexOf_range filename "."%char) as Hr.
  destruct (JS.lastIndexOf filename "." <=? 0) eqn:E; simpl.
  { split; [done|by left]. }
  apply Z.leb_gt in E.
  set (r := JS.lastIndexOf filename ".") in *.
  set (len := Z.of_nat (JS.length filename)) in *.
  assert (JS.substring filename 0 r = JS.take (Z.to_nat r) filename) as ->.
  { unfold JS.substring. fold len.
    replace (Z.min (Z.max 0 0) len) with 0 by lia.
    replace (Z.min (Z.max r 0) len) with r by lia.
    replace (Z.min 0 r) with 0 by lia.
    by replace (Z.max 0 r - 0) with r by lia. }
  assert (JS.substring_from filename r = JS.drop (Z.to_nat r) filename) as ->.
  { unfold JS.substring_from, JS.substring. fold len.
    replace (Z.min (Z.max r 0) len) with r by lia.
    replace (Z.min (Z.max len 0) len) with len by lia.
    replace (Z.max r len - Z.min r len) with (len - r) by lia.
    replace (Z.min r len) with r by lia.
    apply take_all. rewrite length_drop. lia. }
  split.
  - assert (filename ≠ "") as Hne.
    { intros ->. unfold len in Hr. simpl in Hr. lia. }
    split; [|done]. intros Hemp.
    destruct filename as [|c s]; [done|].
    destruct (Z.to_nat r) as [|k] eqn:Ek; [lia|]. by simpl in Hemp.
  - right. destruct (drop_get (Z.to_nat r) filename "."%char) as [body Hb].
    { apply lastIndexOf_get. lia. }
    exists body. split; [exact Hb|].
    destruct (Notions.mem_char "." body) eqn:Hmem; [exfalso|done].
    assert (∀ s c, Notions.mem_char c s = true →
                   ∃ i, JS.get i s = Some c) as Hget.
    { induction s as [|a s IH]; intros c0; simpl; [done|].
      intros [->%bool_decide_eq_true|Hs]%orb_true_iff; [by exists 0%nat|].
      destruct (IH c0 Hs) as [i Hi]. by exists (S i). }
    destruct (Hget body "."%char Hmem) as [i Hi].
    assert (∀ n s t, JS.drop n s = t → ∀ j, JS.get j t = JS.get (n + j) s)
      as Hdrop.
    { induction n as [|n IH]; intros [|a s] t <- j; simpl; try done.
      - by destruct j.
      - by apply IH. }
    apply (lastIndexOf_last filename "."%char (Z.to_nat r + S i)).
    + fold r. lia.
    + rewrite <- (Hdrop _ _ _ Hb (S i)). exact Hi.
Qed.
